(** * Emulated Roku: discovery engine, access guard and command server

    A shallow embedding of [src/index.ts]: the SSDP discovery protocol
    class [EmulatedRokuDiscoveryProtocol], the command handler interface
    and [EmulatedRokuServer] with its access guard, together with the
    properties that the specification states about them.  The guard of the
    Express draft kept with the sources is embedded next to it.

    The first half of the file holds the definitions, the second half the
    lemmas and theorems. *)

From Stdlib Require Import Bool List String Ascii ZArith NArith QArith Qround Lia.
From Stdlib Require Import DecimalString.
Import ListNotations.

Close Scope Q_scope.
Open Scope string_scope.
Open Scope Z_scope.

(* ===================================================================== *)
(** * The ECMAScript fragment used by the sources *)
(* ===================================================================== *)

(** Strings are sequences of code units; the code units of the model are
    the 8-bit ones (SSDP and HTTP headers are ASCII text).  Numbers are
    IEEE doubles in the language; the model keeps the finite values as
    rationals and [NaN] apart.  Sums, remainders and products are exact
    here, where the language rounds each result to the nearest double: a
    delay computed below is the one of the program up to that rounding,
    which is why the theorems on delays speak of [NaN] and of ranges. *)
Module JS.

Inductive number : Type :=
| NaN
| Num (q : Q).

Definition ofZ (z : Z) : number := Num (inject_Z z).

(** [a + b] and [a * b]: [NaN] is absorbing. *)
Definition add (a b : number) : number :=
  match a, b with
  | Num x, Num y => Num (Qred (x + y))
  | _, _ => NaN
  end.

Definition mul (a b : number) : number :=
  match a, b with
  | Num x, Num y => Num (Qred (x * y))
  | _, _ => NaN
  end.

(** Truncation towards zero. *)
Definition Qtrunc (q : Q) : Z := Z.quot (Qnum q) (Zpos (Qden q)).

(** [a % b]: the remainder has the sign of the dividend; [NaN] when an
    operand is [NaN] or the divisor is zero. *)
Definition rem (a b : number) : number :=
  match a, b with
  | Num x, Num y =>
      if Qeq_bool y 0 then NaN
      else Num (Qred (x - y * inject_Z (Qtrunc (x / y))))
  | _, _ => NaN
  end.

(** [WhiteSpace] and [LineTerminator] code units below 256:
    TAB, LF, VT, FF, CR, SP and NBSP. *)
Definition isWhiteSpace (c : ascii) : bool :=
  let n := nat_of_ascii c in
  (Nat.eqb n 9 || Nat.eqb n 10 || Nat.eqb n 11 || Nat.eqb n 12
   || Nat.eqb n 13 || Nat.eqb n 32 || Nat.eqb n 160)%bool.

Fixpoint trimStart (s : string) : string :=
  match s with
  | EmptyString => EmptyString
  | String c r => if isWhiteSpace c then trimStart r else s
  end.

Fixpoint trimEnd (s : string) : string :=
  match s with
  | EmptyString => EmptyString
  | String c r =>
      match trimEnd r with
      | EmptyString => if isWhiteSpace c then EmptyString else String c EmptyString
      | r' => String c r'
      end
  end.

(** [String.prototype.trim] *)
Definition trim (s : string) : string := trimEnd (trimStart s).

(** [s.startsWith(p)] *)
Fixpoint startsWith (s p : string) : bool :=
  match p, s with
  | EmptyString, _ => true
  | String _ _, EmptyString => false
  | String a p', String b s' => (Ascii.eqb a b && startsWith s' p')%bool
  end.

(** [s.includes(p)] *)
Fixpoint includes (s p : string) : bool :=
  (startsWith s p
   || match s with
      | EmptyString => false
      | String _ s' => includes s' p
      end)%bool.

Fixpoint drop (n : nat) (s : string) : string :=
  match n, s with
  | O, _ => s
  | S _, EmptyString => EmptyString
  | S n', String _ r => drop n' r
  end.

(** [s.replace(pat, rep)] for a string pattern: the first occurrence only. *)
Fixpoint replace (s pat rep : string) : string :=
  if startsWith s pat then rep ++ drop (String.length pat) s
  else match s with
       | EmptyString => EmptyString
       | String c r => String c (replace r pat rep)
       end.

(** [s.indexOf(p)]: the first position where [p] occurs, [-1] if none. *)
Fixpoint indexOfFrom (s p : string) (i : Z) : Z :=
  if startsWith s p then i
  else match s with
       | EmptyString => -1
       | String _ s' => indexOfFrom s' p (i + 1)
       end.

Definition indexOf (s p : string) : Z := indexOfFrom s p 0.

(** [s[i]]: the one-unit string at [i], or [undefined] ([None]). *)
Definition at_ (s : string) (i : Z) : option ascii :=
  if i <? 0 then None else String.get (Z.to_nat i) s.

(** [ToString] of the value [s[i]]. *)
Definition toString (v : option ascii) : string :=
  match v with
  | Some c => String c EmptyString
  | None => "undefined"
  end.

Definition digitValue (c : ascii) : option Z :=
  let n := nat_of_ascii c in
  if (Nat.leb 48 n && Nat.leb n 57)%bool then Some (Z.of_nat n - 48) else None.

Definition isDigit (c : ascii) : bool :=
  match digitValue c with Some _ => true | None => false end.

(** The longest prefix of decimal digits, as a value; [None] when the
    prefix is empty. *)
Fixpoint digitsPrefix (s : string) (acc : option Z) : option Z :=
  match s with
  | EmptyString => acc
  | String c r =>
      match digitValue c with
      | Some d =>
          digitsPrefix r
            (Some (10 * match acc with Some a => a | None => 0 end + d))
      | None => acc
      end
  end.

(** [parseInt(s, 10)]: leading white space is skipped, then an optional
    sign, then the longest run of decimal digits; [NaN] when that run is
    empty.  (The sign of a zero result is not modelled.) *)
Definition parseInt10 (s : string) : number :=
  let t := trimStart s in
  let '(neg, body) :=
    match t with
    | String "-"%char r => (true, r)
    | String "+"%char r => (false, r)
    | _ => (false, t)
    end in
  match digitsPrefix body None with
  | None => NaN
  | Some z => ofZ (if neg then - z else z)
  end.

(** Template-literal substitution of a non-negative integer. *)
Definition ofN (n : N) : string := NilEmpty.string_of_uint (N.to_uint n).

(** [Buffer.from(s).byteLength]: the length of the UTF-8 encoding. *)
Fixpoint byteLength (s : string) : Z :=
  match s with
  | EmptyString => 0
  | String c r => (if Nat.ltb (nat_of_ascii c) 128 then 1 else 2) + byteLength r
  end.

(** [s.length] *)
Definition length (s : string) : Z := Z.of_nat (String.length s).

End JS.

(** Line feed, carriage return and the double quote, for writing payloads. *)
Definition LF : string := String "010"%char EmptyString.
Definition CRLF : string := String "013"%char (String "010"%char EmptyString).
Definition DQUOTE : string := String "034"%char EmptyString.

(* ===================================================================== *)
(** * Node's datagram socket and timers *)
(* ===================================================================== *)

Record RemoteInfo : Type := mkRemoteInfo {
  address : string;
  port : N
}.

(** The arguments of one [socket.send(msg, offset, length, port, address)]
    that went out. *)
Record Datagram : Type := mkDatagram {
  dg_msg : string;
  dg_offset : Z;
  dg_length : Z;
  dg_port : N;
  dg_address : string
}.

(** The errors that the calls below throw: the two of Node's datagram
    socket, the one of a second HTTP response, the [TypeError] of using
    [undefined] as an object or a function, and a failure reported by the
    host ([OSError]). *)
Inductive Error : Type :=
| ERR_SOCKET_DGRAM_NOT_RUNNING
| ERR_SOCKET_BAD_PORT
| ERR_HTTP_HEADERS_SENT
| TypeError
| OSError.

Inductive Completion (A : Type) : Type :=
| Normal (a : A)
| Throw (e : Error).
Arguments Normal {A} a.
Arguments Throw {A} e.

(** A [dgram.Socket]: [handle] is false once the socket has been closed;
    [close_event] is true between a successful [close()] and the delivery
    of the ['close'] event it queues. *)
Record Socket : Type := mkSocket {
  handle : bool;
  close_event : bool;
  outbox : list Datagram
}.

(** What a pending [setTimeout] runs: the reply closure of
    [datagramReceived], which captures [rinfo]. *)
Inductive Callback : Type :=
| Reply (rinfo : RemoteInfo).

Record Timer : Type := mkTimer {
  t_handle : nat;
  t_delay : JS.number;
  t_callback : Callback
}.

(* ===================================================================== *)
(** * Calls that mutate state and may throw *)
(* ===================================================================== *)

(** A method runs on a state and completes normally or throws; the
    mutations made before a throw stay. *)
Module Eff.

Definition M (St A : Type) : Type := St -> Completion A * St.

Definition ret {St A : Type} (a : A) : M St A := fun w => (Normal a, w).

Definition bind {St A B : Type} (m : M St A) (k : A -> M St B) : M St B :=
  fun w =>
    match m w with
    | (Normal a, w') => k a w'
    | (Throw e, w') => (Throw e, w')
    end.

Definition modify {St : Type} (f : St -> St) : M St unit :=
  fun w => (Normal tt, f w).

Definition gets {St A : Type} (f : St -> A) : M St A :=
  fun w => (Normal (f w), w).

End Eff.

Declare Scope eff_scope.
Delimit Scope eff_scope with eff.
Notation "x <- m ;; k" := (Eff.bind m (fun x => k))
  (at level 61, m at next level, right associativity) : eff_scope.
Notation "m ;; k" := (Eff.bind m (fun _ => k))
  (at level 61, right associativity) : eff_scope.
Open Scope eff_scope.

(* ===================================================================== *)
(** * EmulatedRokuDiscoveryProtocol *)
(* ===================================================================== *)

Module Discovery.

(** Multicast/SSDP constants *)
Definition MULTICAST_TTL : N := 300.
Definition MULTICAST_TTL_MS : N := MULTICAST_TTL * 1000.
Definition MULTICAST_MAX_DELAY : Z := 5.
Definition MULTICAST_GROUP : string := "239.255.255.250".
Definition MULTICAST_PORT : N := 1900.

(** The fields of the protocol object. [notifyInterval] is the handle
    returned by [setInterval], or [undefined]. *)
Record Protocol : Type := mkProtocol {
  hostIp : string;
  rokuUsn : string;
  advertiseIp : string;
  advertisePort : N;
  ssdpResponse : string;
  notifyBroadcast : string;
  notifyInterval : option nat;
  connected : bool
}.

(** The protocol object together with the part of the runtime it acts
    on: its socket, the pending one-shot timers, the live interval
    handles and the next fresh timer handle. *)
Record World : Type := mkWorld {
  this : Protocol;
  dgramSocket : Socket;
  timeouts : list Timer;
  intervals : list nat;
  next_handle : nat
}.

(** The template literals span source lines: every line after the first
    starts with the six blanks of the source's indentation and the text
    ends with the four blanks before the closing back-quote. *)
Definition ssdpResponse_text (advertiseIp : string) (advertisePort : N)
    (rokuUsn : string) : string :=
  "HTTP/1.1 200 OK" ++ LF ++
  "      Cache-Control: max-age = " ++ JS.ofN MULTICAST_TTL ++ LF ++
  "      ST: roku:ecp" ++ LF ++
  "      SERVER: Roku/12.0.0 UPnP/1.0 Roku/12.0.0" ++ LF ++
  "      Ext: " ++ LF ++
  "      Location: http://" ++ advertiseIp ++ ":" ++ JS.ofN advertisePort ++ "/" ++ LF ++
  "      USN: uuid:roku:ecp:" ++ rokuUsn ++ LF ++
  "    ".

(** The last header of the NOTIFY text is written [{usn}] in the source,
    without the dollar sign of a substitution. *)
Definition notifyBroadcast_text (advertiseIp : string) (advertisePort : N)
    : string :=
  "NOTIFY * HTTP/1.1" ++ LF ++
  "      HOST: " ++ MULTICAST_GROUP ++ ":" ++ JS.ofN MULTICAST_PORT ++ LF ++
  "      Cache-Control: max-age = " ++ JS.ofN MULTICAST_TTL ++ LF ++
  "      NT: upnp:rootdevice" ++ LF ++
  "      NTS: ssdp:alive" ++ LF ++
  "      Location: http://" ++ advertiseIp ++ ":" ++ JS.ofN advertisePort ++ "/" ++ LF ++
  "      USN: uuid:roku:ecp:{usn}" ++ LF ++
  "    ".

(** [constructor]: the two payloads are rendered once; the engine starts
    disconnected with no interval armed. *)
Definition constructor (hostIp rokuUsn advertiseIp : string)
    (advertisePort : N) : Protocol :=
  {| hostIp := hostIp;
     rokuUsn := rokuUsn;
     advertiseIp := advertiseIp;
     advertisePort := advertisePort;
     ssdpResponse := ssdpResponse_text advertiseIp advertisePort rokuUsn;
     notifyBroadcast := notifyBroadcast_text advertiseIp advertisePort;
     notifyInterval := None;
     connected := false |}.

(** The world right after construction on a freshly created socket. *)
Definition fresh (p : Protocol) : World :=
  {| this := p;
     dgramSocket := {| handle := true; close_event := false; outbox := [] |};
     timeouts := [];
     intervals := [];
     next_handle := 0%nat |}.

(** ** Field updates *)

Definition set_connected (b : bool) (w : World) : World :=
  let p := this w in
  {| this := {| hostIp := hostIp p; rokuUsn := rokuUsn p;
                advertiseIp := advertiseIp p; advertisePort := advertisePort p;
                ssdpResponse := ssdpResponse p;
                notifyBroadcast := notifyBroadcast p;
                notifyInterval := notifyInterval p;
                connected := b |};
     dgramSocket := dgramSocket w; timeouts := timeouts w;
     intervals := intervals w; next_handle := next_handle w |}.

Definition set_notifyInterval (h : option nat) (w : World) : World :=
  let p := this w in
  {| this := {| hostIp := hostIp p; rokuUsn := rokuUsn p;
                advertiseIp := advertiseIp p; advertisePort := advertisePort p;
                ssdpResponse := ssdpResponse p;
                notifyBroadcast := notifyBroadcast p;
                notifyInterval := h;
                connected := connected p |};
     dgramSocket := dgramSocket w; timeouts := timeouts w;
     intervals := intervals w; next_handle := next_handle w |}.

Definition set_socket (s : Socket) (w : World) : World :=
  {| this := this w; dgramSocket := s; timeouts := timeouts w;
     intervals := intervals w; next_handle := next_handle w |}.

Definition set_timeouts (ts : list Timer) (w : World) : World :=
  {| this := this w; dgramSocket := dgramSocket w; timeouts := ts;
     intervals := intervals w; next_handle := next_handle w |}.

Definition M : Type -> Type := Eff.M World.

(** ** The socket and timer calls *)

(** Node accepts a destination port from 1 to 65535. *)
Definition valid_port (p : N) : bool := ((1 <=? p) && (p <=? 65535))%N.
Arguments valid_port : simpl never.

(** [socket.send]: the destination port is validated first, then the
    socket must have a handle; the datagram is queued otherwise. *)
Definition socket_send (d : Datagram) : M unit :=
  fun w =>
    let s := dgramSocket w in
    if negb (valid_port (dg_port d)) then (Throw ERR_SOCKET_BAD_PORT, w)
    else if handle s
    then (Normal tt,
          set_socket {| handle := true; close_event := close_event s;
                        outbox := outbox s ++ [d] |} w)
    else (Throw ERR_SOCKET_DGRAM_NOT_RUNNING, w).

(** [socket.close]: throws on a socket without a handle; otherwise drops
    the handle and queues the ['close'] event. *)
Definition socket_close : M unit :=
  fun w =>
    let s := dgramSocket w in
    if handle s
    then (Normal tt,
          set_socket {| handle := false; close_event := true;
                        outbox := outbox s |} w)
    else (Throw ERR_SOCKET_DGRAM_NOT_RUNNING, w).

Definition setInterval : M nat :=
  fun w =>
    (Normal (next_handle w),
     {| this := this w; dgramSocket := dgramSocket w; timeouts := timeouts w;
        intervals := next_handle w :: intervals w;
        next_handle := S (next_handle w) |}).

Definition clearInterval (h : nat) : M unit :=
  fun w =>
    (Normal tt,
     {| this := this w; dgramSocket := dgramSocket w; timeouts := timeouts w;
        intervals := List.filter (fun i => negb (Nat.eqb i h)) (intervals w);
        next_handle := next_handle w |}).

Definition setTimeout (cb : Callback) (delay : JS.number) : M nat :=
  fun w =>
    (Normal (next_handle w),
     {| this := this w; dgramSocket := dgramSocket w;
        timeouts := timeouts w
                    ++ [{| t_handle := next_handle w; t_delay := delay;
                           t_callback := cb |}];
        intervals := intervals w;
        next_handle := S (next_handle w) |}).

(** ** The methods *)

(** [multicastNotify] *)
Definition multicastNotify : M unit :=
  nb <- Eff.gets (fun w => notifyBroadcast (this w)) ;;
  socket_send {| dg_msg := nb; dg_offset := 0;
                 dg_length := JS.byteLength nb;
                 dg_port := MULTICAST_PORT; dg_address := MULTICAST_GROUP |}.

(** [connectionMade] *)
Definition connectionMade : M unit :=
  ni <- Eff.gets (fun w => notifyInterval (this w)) ;;
  match ni with
  | Some h => clearInterval h
  | None => Eff.ret tt
  end ;;
  Eff.modify (set_connected true) ;;
  multicastNotify ;;
  h <- setInterval ;;
  Eff.modify (set_notifyInterval (Some h)).

(** [close] *)
Definition close : M unit :=
  Eff.modify (set_connected false) ;;
  ni <- Eff.gets (fun w => notifyInterval (this w)) ;;
  match ni with
  | Some h => clearInterval h ;; Eff.modify (set_notifyInterval None)
  | None => Eff.ret tt
  end ;;
  socket_close.

(** [connectionLost] *)
Definition connectionLost : M unit := close.

(** The test at the head of [datagramReceived], on the trimmed text. *)
Definition isDiscoveryRequest (data : string) : bool :=
  negb (negb (JS.startsWith data "M-SEARCH * HTTP/1.1")
        || negb (JS.includes data "ST: ssdp:all"
                 || JS.includes data "ST: roku:ecp")).

(** The delay of [datagramReceived], in milliseconds; [random] is the
    value that [Math.random()] returns. *)
Definition replyDelay (data : string) (random : Q) : JS.number :=
  let mxValue := JS.indexOf data "MX:" in
  if negb (mxValue =? -1)
  then
    let mxDelay :=
      JS.rem (JS.parseInt10 (JS.toString (JS.at_ data (mxValue + 4))))
             (JS.ofZ (MULTICAST_MAX_DELAY + 1)) in
    JS.mul (JS.mul (JS.Num random) (JS.add mxDelay (JS.ofZ 1))) (JS.ofZ 1000)
  else
    JS.mul (JS.mul (JS.Num random) (JS.ofZ (MULTICAST_MAX_DELAY + 1)))
           (JS.ofZ 1000).

(** [datagramReceived]; [msg] is the decoded text of the buffer. *)
Definition datagramReceived (msg : string) (rinfo : RemoteInfo)
    (random : Q) : M unit :=
  let data := JS.trim msg in
  if (negb (JS.startsWith data "M-SEARCH * HTTP/1.1")
      || negb (JS.includes data "ST: ssdp:all"
               || JS.includes data "ST: roku:ecp"))%bool
  then Eff.ret tt
  else
    _ <- setTimeout (Reply rinfo) (replyDelay data random) ;;
    Eff.ret tt.

(** The closure handed to [setTimeout]. *)
Definition run_callback (cb : Callback) : M unit :=
  match cb with
  | Reply rinfo =>
      c <- Eff.gets (fun w => connected (this w)) ;;
      if negb c then Eff.ret tt
      else
        r <- Eff.gets (fun w => ssdpResponse (this w)) ;;
        socket_send {| dg_msg := r; dg_offset := 0;
                       dg_length := JS.length r;
                       dg_port := port rinfo; dg_address := address rinfo |}
  end.

(** ** The event loop

    What the runtime can deliver to the protocol object: the socket's
    events, due timers, and the owner's call of [close()].  An event that
    the runtime cannot deliver in the current world (a message or
    ['listening'] on a socket without a handle, a ['close'] event that is
    not queued, a timer that is not pending or was cleared) does
    nothing. *)
Inductive Event : Type :=
| EvListening
| EvMessage (msg : string) (rinfo : RemoteInfo) (random : Q)
| EvClose
| EvTimeout (h : nat)
| EvInterval (h : nat)
| EvStop.

Fixpoint take_timer (h : nat) (ts : list Timer)
    : option (Timer * list Timer) :=
  match ts with
  | [] => None
  | t :: r =>
      if Nat.eqb (t_handle t) h then Some (t, r)
      else match take_timer h r with
           | Some (x, r') => Some (x, t :: r')
           | None => None
           end
  end.

Definition dispatch (ev : Event) : M unit :=
  fun w =>
    match ev with
    | EvListening =>
        if handle (dgramSocket w) then connectionMade w else (Normal tt, w)
    | EvMessage msg rinfo random =>
        if handle (dgramSocket w) then datagramReceived msg rinfo random w
        else (Normal tt, w)
    | EvClose =>
        let s := dgramSocket w in
        if close_event s
        then connectionLost
               (set_socket {| handle := handle s; close_event := false;
                              outbox := outbox s |} w)
        else (Normal tt, w)
    | EvTimeout h =>
        match take_timer h (timeouts w) with
        | Some (t, rest) => run_callback (t_callback t) (set_timeouts rest w)
        | None => (Normal tt, w)
        end
    | EvInterval h =>
        if List.existsb (Nat.eqb h) (intervals w) then multicastNotify w
        else (Normal tt, w)
    | EvStop => close w
    end.

(** Running a sequence of events; the completions are collected and the
    loop goes on after a throw. *)
Fixpoint run (evs : list Event) (w : World)
    : list (Completion unit) * World :=
  match evs with
  | [] => ([], w)
  | ev :: rest =>
      let '(c, w1) := dispatch ev w in
      let '(cs, w2) := run rest w1 in
      (c :: cs, w2)
  end.

End Discovery.

(* ===================================================================== *)
(** * EmulatedRokuCommandHandler and EmulatedRokuServer *)
(* ===================================================================== *)

Module Server.

(** What reading a member of an object can give. *)
Inductive Value : Type :=
| Undefined
| Null
| Bool (b : bool)
| Number (n : N)
| Str (s : string)
| Object.

(** The four operations of the command handler, over the handler's own
    state [S]; the server never looks at what they return.  The first
    argument is declared a string; an operation receives whatever value
    the caller passes there. *)
Record CommandHandler (S : Type) : Type := mkCommandHandler {
  onKeydown : Value -> string -> S -> S;
  onKeyup : Value -> string -> S -> S;
  onKeypress : Value -> string -> S -> S;
  launch : Value -> string -> S -> S
}.
Arguments onKeydown {S} _ _ _ _.
Arguments onKeyup {S} _ _ _ _.
Arguments onKeypress {S} _ _ _ _.
Arguments launch {S} _ _ _ _.

(** The base class: every operation has an empty body. *)
Definition EmulatedRokuCommandHandler {S : Type} : CommandHandler S :=
  {| onKeydown := fun _ _ s => s;
     onKeyup := fun _ _ s => s;
     onKeypress := fun _ _ s => s;
     launch := fun _ _ s => s |}.

(** A handler that records the calls it receives, oldest first. *)
Inductive HandlerCall : Type :=
| KeyDown (rokuUsn : Value) (key : string)
| KeyUp (rokuUsn : Value) (key : string)
| KeyPress (rokuUsn : Value) (key : string)
| Launch (rokuUsn : Value) (appId : string).

Definition Recorder : CommandHandler (list HandlerCall) :=
  {| onKeydown := fun u k s => (s ++ [KeyDown u k])%list;
     onKeyup := fun u k s => (s ++ [KeyUp u k])%list;
     onKeypress := fun u k s => (s ++ [KeyPress u k])%list;
     launch := fun u k s => (s ++ [Launch u k])%list |}.

(** ** Requests and responses *)

Record Request : Type := mkRequest {
  method : string;
  path : string;
  host : string;
  remote : string
}.

Inductive Body : Type :=
| NoBody
| Text (s : string)
| Bytes (base64 : string).

Record Response : Type := mkResponse {
  status : N;
  body : Body;
  content_type : option string
}.

(** [web.Response()] and [web.Response(body=..., headers={'Content-Type': ...})] *)
Definition Response_empty : Response :=
  {| status := 200; body := NoBody; content_type := None |}.

Definition Response_with (b : Body) (ct : string) : Response :=
  {| status := 200; body := b; content_type := Some ct |}.

Inductive HTTPException : Type :=
| HTTPForbidden
| HTTPNotFound
| HTTPMethodNotAllowed.

Definition status_code (e : HTTPException) : N :=
  match e with
  | HTTPForbidden => 403
  | HTTPNotFound => 404
  | HTTPMethodNotAllowed => 405
  end.

(** How the handling of a request ends: with a response, with an HTTP
    exception, or with another error thrown on the way. *)
Inductive Outcome : Type :=
| Respond (r : Response)
| Raise (e : HTTPException)
| Fail (e : Error).

(** What the client sees; an error that is not an HTTP exception is
    answered with 500. *)
Definition http_status (o : Outcome) : N :=
  match o with
  | Respond r => status r
  | Raise e => status_code e
  | Fail _ => 500
  end.

(** What a request can act on: the state of the command handler and the
    warnings logged so far. *)
Record Env (S : Type) : Type := mkEnv {
  hstate : S;
  warnings : list string
}.
Arguments mkEnv {S} _ _.
Arguments hstate {S} _.
Arguments warnings {S} _.

(** ** Templates *)

Definition APP_PLACEHOLDER_ICON : Body :=
  Bytes "iVBORw0KGgoAAAANSUhEUgAAAAEAAAABCAQAAAC1HAwCAAAAC0lEQVR42mP8Xw8AAoMBgDTD2qgAAAAASUVORK5CYII=".

Definition formatInfoTemplate (uuid usn : string) : string :=
  "<?xml version=" ++ DQUOTE ++ "1.0" ++ DQUOTE ++ " encoding=" ++ DQUOTE ++ "UTF-8" ++ DQUOTE ++ " ?>" ++ LF ++
  "<root xmlns=" ++ DQUOTE ++ "urn:schemas-upnp-org:device-1-0" ++ DQUOTE ++ ">" ++ LF ++
  "  <specVersion>" ++ LF ++
  "    <major>1</major>" ++ LF ++
  "    <minor>0</minor>" ++ LF ++
  "  </specVersion>" ++ LF ++
  "  <device>" ++ LF ++
  "  <deviceType>urn:roku-com:device:player:1-0</deviceType>" ++ LF ++
  "  <friendlyName>" ++ usn ++ "</friendlyName>" ++ LF ++
  "  <manufacturer>Roku</manufacturer>" ++ LF ++
  "  <manufacturerURL>http://www.roku.com/</manufacturerURL>" ++ LF ++
  "  <modelDescription>Emulated Roku</modelDescription>" ++ LF ++
  "  <modelName>Roku 4</modelName>" ++ LF ++
  "  <modelNumber>4400x</modelNumber>" ++ LF ++
  "  <modelURL>http://www.roku.com/</modelURL>" ++ LF ++
  "  <serialNumber>" ++ usn ++ "</serialNumber>" ++ LF ++
  "  <UDN>uuid:" ++ uuid ++ "</UDN>" ++ LF ++
  "  </device>" ++ LF ++
  "</root>" ++ LF.

Definition formatDeviceInfoTemplate (uuid usn : string) : string :=
  "<device-info>" ++ LF ++
  "  <udn>" ++ uuid ++ "</udn>" ++ LF ++
  "  <serial-number>" ++ usn ++ "</serial-number>" ++ LF ++
  "  <device-id>" ++ usn ++ "</device-id>" ++ LF ++
  "  <vendor-name>Roku</vendor-name>" ++ LF ++
  "  <model-number>4400X</model-number>" ++ LF ++
  "  <model-name>Roku 4</model-name>" ++ LF ++
  "  <model-region>US</model-region>" ++ LF ++
  "  <supports-ethernet>true</supports-ethernet>" ++ LF ++
  "  <wifi-mac>00:00:00:00:00:00</wifi-mac>" ++ LF ++
  "  <ethernet-mac>00:00:00:00:00:00</ethernet-mac>" ++ LF ++
  "  <network-type>ethernet</network-type>" ++ LF ++
  "  <user-device-name>" ++ usn ++ "</user-device-name>" ++ LF ++
  "  <software-version>7.5.0</software-version>" ++ LF ++
  "  <software-build>09021</software-build>" ++ LF ++
  "  <secure-device>true</secure-device>" ++ LF ++
  "  <language>en</language>" ++ LF ++
  "  <country>US</country>" ++ LF ++
  "  <locale>en_US</locale>" ++ LF ++
  "  <time-zone>US/Pacific</time-zone>" ++ LF ++
  "  <time-zone-offset>-480</time-zone-offset>" ++ LF ++
  "  <power-mode>PowerOn</power-mode>" ++ LF ++
  "  <supports-suspend>false</supports-suspend>" ++ LF ++
  "  <supports-find-remote>false</supports-find-remote>" ++ LF ++
  "  <supports-audio-guide>false</supports-audio-guide>" ++ LF ++
  "  <developer-enabled>false</developer-enabled>" ++ LF ++
  "  <keyed-developer-id>0000000000000000000000000000000000000000</keyed-developer-id>" ++ LF ++
  "  <search-enabled>false</search-enabled>" ++ LF ++
  "  <voice-search-enabled>false</voice-search-enabled>" ++ LF ++
  "  <notifications-enabled>false</notifications-enabled>" ++ LF ++
  "  <notifications-first-use>false</notifications-first-use>" ++ LF ++
  "  <supports-private-listening>false</supports-private-listening>" ++ LF ++
  "  <headphones-connected>false</headphones-connected>" ++ LF ++
  "</device-info>" ++ LF.

Definition app_line (n : N) : string :=
  "  <app id=" ++ DQUOTE ++ JS.ofN n ++ DQUOTE ++ " version=" ++ DQUOTE ++ "1.0.0"
  ++ DQUOTE ++ ">Emulated App " ++ JS.ofN n ++ "</app>" ++ LF.

Definition APPS_TEMPLATE : string :=
  "<apps>" ++ LF ++
  String.concat "" (List.map app_line [1; 2; 3; 4; 5; 6; 7; 8; 9; 10]%N) ++
  "</apps>" ++ LF.

Definition ACTIVE_APP_TEMPLATE : string :=
  "<active-app>" ++ LF ++
  "  <app>Roku</app>" ++ LF ++
  "</active-app>" ++ LF.

(** ** The server object *)

Inductive AppRunner : Type :=
| Runner.

(** The fields of the server object.  The command handler it was given
    is the [handler] of the request section below; [discovery_proto] holds
    the protocol object with its world when there is one. *)
Record EmulatedRokuServer : Type := mkServer {
  rokuUsn : string;
  hostIp : string;
  listenPort : N;
  advertiseIp : string;
  advertisePort : N;
  bindMulticast : bool;
  allowed_hosts : list string;
  roku_uuid : string;
  roku_info : string;
  device_info : string;
  discovery_proto : option Discovery.World;
  api_runner : option AppRunner
}.

Section Construction.

(** The assignments of the constructor, for a function [uuid5] and a
    value [OID] that make the call [uuid5(uuid5.OID, rokuUsn)] return a
    string, and for [win32], whether [process.platform] is ['win32'].
    What that call does with the [uuid] package is in [construct]
    below. *)
Variable uuid5 : string -> string -> string.
Variable OID : string.
Variable win32 : bool.

(** [constructor]; [None] stands for an argument left [null]. *)
Definition constructor (rokuUsn hostIp : string) (listenPort : N)
    (advertiseIp : option string) (advertisePort : option N)
    (bindMulticast : option bool) : EmulatedRokuServer :=
  let advertiseIp' :=
    match advertiseIp with Some a => a | None => hostIp end in
  let advertisePort' :=
    match advertisePort with Some p => p | None => listenPort end in
  let roku_uuid := uuid5 OID rokuUsn in
  {| rokuUsn := rokuUsn;
     hostIp := hostIp;
     listenPort := listenPort;
     advertiseIp := advertiseIp';
     advertisePort := advertisePort';
     bindMulticast :=
       match bindMulticast with
       | None => win32
       | Some b => b
       end;
     allowed_hosts :=
       [ hostIp;
         hostIp ++ ":" ++ JS.ofN listenPort;
         advertiseIp';
         advertiseIp' ++ ":" ++ JS.ofN advertisePort' ];
     roku_uuid := roku_uuid;
     roku_info := formatInfoTemplate roku_uuid rokuUsn;
     device_info := formatDeviceInfoTemplate roku_uuid rokuUsn;
     discovery_proto := None;
     api_runner := None |}.

End Construction.

(** ** The [uuid] package *)

Section Uuid.

(** The hashing of a name in a namespace to the text of an identifier, and
    the test whether a text is that of a UUID. *)
Variable sha1_uuid : string -> string -> string.
Variable is_uuid : string -> bool.

(** [v5(value, namespace)], imported as [uuid5]: a namespace given as text
    is parsed, which throws for a text that is not a UUID; the length of
    [value] is taken next, which throws for [undefined]. *)
Definition v5 (value namespace : Value) : Completion string :=
  match namespace with
  | Str ns =>
      if is_uuid ns
      then match value with
           | Str v => Normal (sha1_uuid v ns)
           | _ => Throw TypeError
           end
      else Throw TypeError
  | _ => Throw TypeError
  end.

(** The properties of the function [v5]: the two namespaces [DNS] and
    [URL] that the package predefines. *)
Definition v5_property (name : string) : Value :=
  if String.eqb name "DNS" then Str "6ba7b810-9dad-11d1-80b4-00c04fd430c8"
  else if String.eqb name "URL" then Str "6ba7b811-9dad-11d1-80b4-00c04fd430c8"
  else Undefined.

(** Line 342, [uuid5(uuid5.OID, rokuUsn)]: the first argument is the value
    to hash and the second the namespace. *)
Definition derive_uuid (rokuUsn : string) : Completion string :=
  v5 (v5_property "OID") (Str rokuUsn).

(** [new EmulatedRokuServer(handler, rokuUsn, hostIp, listenPort,
    advertiseIp, advertisePort, bindMulticast)]: the object is there only
    if line 342 returns. *)
Definition construct (win32 : bool) (rokuUsn hostIp : string) (listenPort : N)
    (advertiseIp : option string) (advertisePort : option N)
    (bindMulticast : option bool) : Completion EmulatedRokuServer :=
  match derive_uuid rokuUsn with
  | Normal u =>
      Normal (constructor (fun _ _ => u) "" win32 rokuUsn hostIp listenPort
                advertiseIp advertisePort bindMulticast)
  | Throw e => Throw e
  end.

End Uuid.

(** [this.<name>] on the server object: its declared members, and
    [undefined] for every other name. *)
Definition member (self : EmulatedRokuServer) (name : string) : Value :=
  if String.eqb name "handler" then Object
  else if String.eqb name "rokuUsn" then Str (rokuUsn self)
  else if String.eqb name "hostIp" then Str (hostIp self)
  else if String.eqb name "listenPort" then Number (listenPort self)
  else if String.eqb name "advertiseIp" then Str (advertiseIp self)
  else if String.eqb name "advertisePort" then Number (advertisePort self)
  else if String.eqb name "bindMulticast" then Bool (bindMulticast self)
  else if String.eqb name "allowed_hosts" then Object
  else if String.eqb name "roku_uuid" then Str (roku_uuid self)
  else if String.eqb name "roku_info" then Str (roku_info self)
  else if String.eqb name "device_info" then Str (device_info self)
  else if String.eqb name "discovery_proto"
       then match discovery_proto self with Some _ => Object | None => Null end
  else if String.eqb name "api_runner"
       then match api_runner self with Some _ => Object | None => Null end
  else Undefined.

Definition set_runtime (dp : option Discovery.World) (ar : option AppRunner)
    (self : EmulatedRokuServer) : EmulatedRokuServer :=
  {| rokuUsn := rokuUsn self; hostIp := hostIp self;
     listenPort := listenPort self; advertiseIp := advertiseIp self;
     advertisePort := advertisePort self; bindMulticast := bindMulticast self;
     allowed_hosts := allowed_hosts self; roku_uuid := roku_uuid self;
     roku_info := roku_info self; device_info := device_info self;
     discovery_proto := dp; api_runner := ar |}.

(** ** Routing *)

Inductive Handler : Type :=
| roku_root_handler
| roku_input_handler
| roku_keydown_handler
| roku_keyup_handler
| roku_keypress_handler
| roku_launch_handler
| roku_apps_handler
| roku_active_app_handler
| roku_app_icon_handler
| roku_search_handler
| roku_info_handler.

(** A route pattern is a fixed path or a prefix followed by one
    [{name}] segment. *)
Inductive Pattern : Type :=
| Static (p : string)
| Dynamic (prefix name : string).

Fixpoint strip_prefix (p s : string) : option string :=
  match p, s with
  | EmptyString, _ => Some s
  | String _ _, EmptyString => None
  | String a p', String b s' =>
      if Ascii.eqb a b then strip_prefix p' s' else None
  end.

(** A [{name}] segment matches one or more characters other than
    [{], [}] and [/]. *)
Definition segment_char (c : ascii) : bool :=
  negb (Ascii.eqb c "{" || Ascii.eqb c "}" || Ascii.eqb c "/")%char.

Definition segment_ok (v : string) : bool :=
  (negb (String.eqb v "")
   && List.forallb segment_char (list_ascii_of_string v))%bool.

Definition match_pattern (pat : Pattern) (path : string)
    : option (list (string * string)) :=
  match pat with
  | Static p => if String.eqb path p then Some [] else None
  | Dynamic prefix name =>
      match strip_prefix prefix path with
      | Some v => if segment_ok v then Some [(name, v)] else None
      | None => None
      end
  end.

(** The handler methods that the class declares, by name. *)
Definition method_named (name : string) : option Handler :=
  if String.eqb name "roku_root_handler" then Some roku_root_handler
  else if String.eqb name "roku_input_handler" then Some roku_input_handler
  else if String.eqb name "roku_keydown_handler" then Some roku_keydown_handler
  else if String.eqb name "roku_keyup_handler" then Some roku_keyup_handler
  else if String.eqb name "roku_keypress_handler" then Some roku_keypress_handler
  else if String.eqb name "roku_launch_handler" then Some roku_launch_handler
  else if String.eqb name "roku_apps_handler" then Some roku_apps_handler
  else if String.eqb name "roku_active_app_handler"
       then Some roku_active_app_handler
  else if String.eqb name "roku_app_icon_handler" then Some roku_app_icon_handler
  else if String.eqb name "roku_search_handler" then Some roku_search_handler
  else if String.eqb name "roku_info_handler" then Some roku_info_handler
  else None.

(** The routes registered by [_setup_app], in order: the method, the
    pattern, and the name of the member of [this] that is registered as the
    handler. *)
Definition routes : list (string * Pattern * string) :=
  [ ("GET", Static "/", "_roku_root_handler");
    ("POST", Dynamic "/keydown/" "key", "_roku_keydown_handler");
    ("POST", Dynamic "/keyup/" "key", "_roku_keyup_handler");
    ("POST", Dynamic "/keypress/" "key", "_roku_keypress_handler");
    ("POST", Dynamic "/launch/" "id", "_roku_launch_handler");
    ("POST", Static "/input", "_roku_input_handler");
    ("POST", Static "/search", "_roku_search_handler");
    ("GET", Static "/query/apps", "_roku_apps_handler");
    ("GET", Dynamic "/query/icon/" "id", "_roku_app_icon_handler");
    ("GET", Static "/query/active-app", "_roku_active_app_handler");
    ("GET", Static "/query/device-info", "_roku_info_handler") ].

Inductive Resolution : Type :=
| Found (h : string) (match_info : list (string * string))
| NotFound
| MethodNotAllowed.

Fixpoint resolve (rs : list (string * Pattern * string))
    (meth path : string) (path_seen : bool) : Resolution :=
  match rs with
  | [] => if path_seen then MethodNotAllowed else NotFound
  | (m, pat, h) :: rest =>
      match match_pattern pat path with
      | Some mi =>
          if String.eqb m meth then Found h mi
          else resolve rest meth path true
      | None => resolve rest meth path path_seen
      end
  end.

(** [match_info[name]]; a route that leads to a handler reading a name
    binds that name, so the empty default is never returned to one. *)
Fixpoint lookup (name : string) (mi : list (string * string)) : string :=
  match mi with
  | [] => ""
  | (n, v) :: rest => if String.eqb n name then v else lookup name rest
  end.

Section Requests.

Context {S : Type}.
Variable handler : CommandHandler S.

(** The address library: parsing of the remote address (the transport
    hands over the peer's address, which parses), and the private-range
    test on the parsed address. *)
Variable IPAddress : Type.
Variable ip_address : string -> IPAddress.
Variable is_private : IPAddress -> bool.

Definition call (f : S -> S) (env : Env S) : Env S :=
  {| hstate := f (hstate env); warnings := warnings env |}.

Definition warning (msg : string) (env : Env S) : Env S :=
  {| hstate := hstate env; warnings := (warnings env ++ [msg])%list |}.

(** [this.handler.<name>]: the operations that the handler declares, by
    name. *)
Definition operation (name : string) : option (Value -> string -> S -> S) :=
  if String.eqb name "onKeydown" then Some (onKeydown handler)
  else if String.eqb name "onKeyup" then Some (onKeyup handler)
  else if String.eqb name "onKeypress" then Some (onKeypress handler)
  else if String.eqb name "launch" then Some (launch handler)
  else None.

(** [this.handler.<name>(a, b)] followed by [return web.Response()]: the
    call of a member that the handler does not have throws. *)
Definition forward (name : string) (a : Value) (b : string) (env : Env S)
    : Outcome * Env S :=
  match operation name with
  | Some f => (Respond Response_empty, call (f a b) env)
  | None => (Fail TypeError, env)
  end.

(** The bodies of the route handlers, on the [match_info] of the request
    they are given.  The key and launch handlers read the path parameter
    and call the command handler with the member [roku_usn] of the server
    and that parameter. *)
Definition run_handler (self : EmulatedRokuServer) (h : Handler)
    (match_info : list (string * string)) (env : Env S) : Outcome * Env S :=
  match h with
  | roku_root_handler =>
      (Respond (Response_with (Text (roku_info self)) "text/xml"), env)
  | roku_input_handler => (Respond Response_empty, env)
  | roku_keydown_handler =>
      let key := lookup "key" match_info in
      forward "on_keydown" (member self "roku_usn") key env
  | roku_keyup_handler =>
      let key := lookup "key" match_info in
      forward "on_keyup" (member self "roku_usn") key env
  | roku_keypress_handler =>
      let key := lookup "key" match_info in
      forward "on_keypress" (member self "roku_usn") key env
  | roku_launch_handler =>
      let app_id := lookup "id" match_info in
      forward "launch" (member self "roku_usn") app_id env
  | roku_apps_handler =>
      (Respond (Response_with (Text APPS_TEMPLATE) "text/xml"), env)
  | roku_active_app_handler =>
      (Respond (Response_with (Text ACTIVE_APP_TEMPLATE) "text/xml"), env)
  | roku_app_icon_handler =>
      (Respond (Response_with APP_PLACEHOLDER_ICON "image/png"), env)
  | roku_search_handler => (Respond Response_empty, env)
  | roku_info_handler =>
      (Respond (Response_with (Text (device_info self)) "text/xml"), env)
  end.

(** [_check_remote_and_host_ip]: the middleware around every handler. *)
Definition _check_remote_and_host_ip (self : EmulatedRokuServer)
    (request : Request) (next : Request -> Env S -> Outcome * Env S)
    (env : Env S) : Outcome * Env S :=
  if negb (List.existsb (String.eqb (host request)) (allowed_hosts self))
  then
    (Raise HTTPForbidden,
     warning ("Rejected non-advertised access by host " ++ host request) env)
  else if negb (is_private (ip_address (remote request)))
  then
    (Raise HTTPForbidden,
     warning ("Rejected non-local access from remote " ++ remote request) env)
  else next request env.

(** The application built by [_setup_app]: the router picks the route (or
    the not-found and method-not-allowed responses) and the middleware runs
    around it.  The handler of a route is the member of [this] registered
    for it: the body of the method of that name, or [undefined] when the
    class has no such method, and calling [undefined] throws. *)
Definition routed (self : EmulatedRokuServer) (request : Request)
    (env : Env S) : Outcome * Env S :=
  match resolve routes (method request) (path request) false with
  | Found name mi =>
      match method_named name with
      | Some h => run_handler self h mi env
      | None => (Fail TypeError, env)
      end
  | NotFound => (Raise HTTPNotFound, env)
  | MethodNotAllowed => (Raise HTTPMethodNotAllowed, env)
  end.

Definition handle_request (self : EmulatedRokuServer) (request : Request)
    (env : Env S) : Outcome * Env S :=
  _check_remote_and_host_ip self request (routed self) env.

(** [socket.inet_aton(a)]: the packed form of an address given as text;
    it throws for anything else. *)
Definition inet_aton (a : Value) : Completion unit :=
  match a with
  | Str _ => Normal tt
  | _ => Throw TypeError
  end.

(** [start].  Setting up the runner and starting the TCP site depend on
    the host and can fail; [reached] says how far the host lets the call
    get.  With both done, the multicast membership is built from
    [socket.inet_aton(this.host_ip)], where [host_ip] is no member of the
    server (the bind address is [hostIp]), so the call throws there; the
    lines after it, which would create the protocol from [this.loop],
    [this.host_ip], [this.roku_usn], [this.advertise_ip] and
    [this.advertise_port] and assign it to [discovery_proto], are not
    reached. *)
Inductive StartProgress : Type :=
| SetupFails
| SiteFails
| SiteStarted.

Definition start (reached : StartProgress) (self : EmulatedRokuServer)
    : Completion unit * EmulatedRokuServer :=
  match reached with
  | SetupFails => (Throw OSError, self)
  | SiteFails =>
      (Throw OSError, set_runtime (discovery_proto self) (Some Runner) self)
  | SiteStarted =>
      match inet_aton (member self "host_ip") with
      | Normal _ =>
          (Throw TypeError,
           set_runtime (discovery_proto self) (Some Runner) self)
      | Throw e =>
          (Throw e, set_runtime (discovery_proto self) (Some Runner) self)
      end
  end.

(** [close]: each part is shut down only if it is there; a throw from the
    protocol's [close] leaves the rest undone. *)
Definition close (self : EmulatedRokuServer)
    : Completion unit * EmulatedRokuServer :=
  match discovery_proto self with
  | Some w =>
      match Discovery.close w with
      | (Normal _, _) => (Normal tt, set_runtime None None self)
      | (Throw e, w') => (Throw e, set_runtime (Some w') (api_runner self) self)
      end
  | None => (Normal tt, set_runtime None None self)
  end.

(** The operations that can run on a constructed server. *)
Inductive Operation : Type :=
| OpStart (reached : StartProgress)
| OpClose
| OpRequest (request : Request).

Definition step (op : Operation) (st : EmulatedRokuServer * Env S)
    : EmulatedRokuServer * Env S :=
  let '(self, env) := st in
  match op with
  | OpStart reached => (snd (start reached self), env)
  | OpClose => (snd (close self), env)
  | OpRequest request => (self, snd (handle_request self request env))
  end.

Definition steps (ops : list Operation) (st : EmulatedRokuServer * Env S)
    : EmulatedRokuServer * Env S :=
  List.fold_left (fun st op => step op st) ops st.

End Requests.

End Server.

(* ===================================================================== *)
(** * The address test of the guard, and sample inputs *)
(* ===================================================================== *)

Module SpecAddress.

(** An IPv4 address as its four octets; [None] for text that is not one. *)
Definition IPAddress : Type := option (Z * Z * Z * Z).

Fixpoint split_dot (s : string) : list string :=
  match s with
  | EmptyString => [EmptyString]
  | String c r =>
      if Ascii.eqb c "."%char then EmptyString :: split_dot r
      else match split_dot r with
           | h :: t => String c h :: t
           | [] => [String c EmptyString]
           end
  end.

Definition octet (s : string) : option Z :=
  if (List.forallb JS.isDigit (list_ascii_of_string s)
      && Nat.leb 1 (String.length s) && Nat.leb (String.length s) 3)%bool
  then match JS.digitsPrefix s None with
       | Some z => if z <=? 255 then Some z else None
       | None => None
       end
  else None.

Definition parse_ipv4 (s : string) : IPAddress :=
  match split_dot s with
  | [a; b; c; d] =>
      match octet a, octet b, octet c, octet d with
      | Some x, Some y, Some z, Some t => Some (x, y, z, t)
      | _, _, _, _ => None
      end
  | _ => None
  end.

(** Modelled from the spec: the parsing of the remote address that the
    guard calls ([ip_address]) is not defined under the sources.  The
    address must be a syntactically valid IPv4 address, an IPv6-mapped
    IPv4 address being normalized to its IPv4 form first. *)
Definition ip_address (remote : string) : IPAddress :=
  match Server.strip_prefix "::ffff:" remote with
  | Some v4 => parse_ipv4 v4
  | None => parse_ipv4 remote
  end.

(** Modelled from the spec: the private-range test that the guard calls
    ([is_private]) is not defined under the sources.  The address must
    fall within the RFC1918 ranges 10/8, 172.16/12 and 192.168/16, or the
    loopback range 127/8. *)
Definition is_private (a : IPAddress) : bool :=
  match a with
  | Some (x, y, _, _) =>
      ((x =? 10)
       || ((x =? 172) && (16 <=? y) && (y <=? 31))
       || ((x =? 192) && (y =? 168))
       || (x =? 127))%bool
  | None => false
  end.

End SpecAddress.

(* ===================================================================== *)
(** * The guard of the Express draft *)
(* ===================================================================== *)

(** The second implementation kept with the sources (class [EmulatedRoku],
    on Express) has its own guard, the middleware installed by
    [configureMiddleware].  It is embedded here next to the guard of
    [EmulatedRokuServer] for comparison. *)
Module Draft.

(** What a request has done so far: whether a response went out, the
    status and body of the responses sent, and the state of the command
    handler. *)
Record Exchange (S : Type) : Type := mkExchange {
  headersSent : bool;
  responses : list (N * string);
  hstate : S
}.
Arguments mkExchange {S} _ _ _.
Arguments headersSent {S} _.
Arguments responses {S} _.
Arguments hstate {S} _.

Section Middleware.

Context {S : Type}.

(** The address library of the draft: [ipaddr.isValid] and the name of the
    range of a parsed address, [ipaddr.parse(a).range()]. *)
Variable isValid : string -> bool.
Variable range : string -> string.

(** [res.status(code).send(body)] and [res.sendStatus(code)]: a second
    response on the same request throws. *)
Definition send (code : N) (body : string) : Eff.M (Exchange S) unit :=
  fun x =>
    if headersSent x then (Throw ERR_HTTP_HEADERS_SENT, x)
    else (Normal tt,
          {| headersSent := true;
             responses := (responses x ++ [(code, body)])%list;
             hstate := hstate x |}).

(** The middleware of [configureMiddleware]; [host] is [req.headers.host]
    and [ip] is [req.ip].  Only the branch for a missing [ip] returns. *)
Definition middleware (allowedHosts : list string) (host ip : option string)
    (next : Eff.M (Exchange S) unit) : Eff.M (Exchange S) unit :=
  (if match host with
      | None => true
      | Some h => negb (List.existsb (String.eqb h) allowedHosts)
      end
   then send 403 "Forbidden - Host not allowed"
   else Eff.ret tt) ;;
  match ip with
  | None => send 403 "Forbidden - No remote IP"
  | Some ip' =>
      let remote := JS.replace ip' "::ffff:" "" in
      (if (negb (isValid remote)
           || negb (JS.startsWith (range remote) "private"))%bool
       then send 403 "Forbidden - Non-local network"
       else Eff.ret tt) ;;
      next
  end.

(** The route [POST /keydown/:key]. *)
Definition keydown_route (handler : Server.CommandHandler S)
    (usn key : string) : Eff.M (Exchange S) unit :=
  Eff.modify (fun x => {| headersSent := headersSent x;
                          responses := responses x;
                          hstate := Server.onKeydown handler (Server.Str usn) key
                                      (hstate x) |}) ;;
  send 200 "OK".

End Middleware.

(** The exchange after a 403 with the given body went out. *)
Definition refused {S : Type} (body : string) (x : Exchange S) : Exchange S :=
  {| headersSent := true;
     responses := (responses x ++ [(403%N, body)])%list;
     hstate := hstate x |}.

(** One entry of [os.networkInterfaces()]. *)
Record NetworkInterfaceInfo : Type := mkInterfaceInfo {
  family : string;
  internal : bool;
  ni_address : string
}.

(** The inner loop of [getLocalIp]: the first address that is IPv4 and
    not internal. *)
Fixpoint first_external (infos : list NetworkInterfaceInfo) : option string :=
  match infos with
  | [] => None
  | ni :: rest =>
      if (String.eqb (family ni) "IPv4" && negb (internal ni))%bool
      then Some (ni_address ni)
      else first_external rest
  end.

(** The outer loop over [Object.entries(nets)]; an interface whose list
    is [undefined] ([None]) is skipped. *)
Fixpoint scan_interfaces
    (nets : list (string * option (list NetworkInterfaceInfo)))
    : option string :=
  match nets with
  | [] => None
  | (_, None) :: rest => scan_interfaces rest
  | (_, Some infos) :: rest =>
      match first_external infos with
      | Some a => Some a
      | None => scan_interfaces rest
      end
  end.

(** [getLocalIp] *)
Definition getLocalIp
    (nets : list (string * option (list NetworkInterfaceInfo))) : string :=
  match scan_interfaces nets with
  | Some a => a
  | None => "127.0.0.1"
  end.

End Draft.

Module Samples.

(** An M-SEARCH request with the given header lines before the
    search-target header, for the search target [st]. *)
Definition msearch (extra st : string) : string :=
  "M-SEARCH * HTTP/1.1" ++ CRLF ++
  "HOST: 239.255.255.250:1900" ++ CRLF ++
  "MAN: " ++ DQUOTE ++ "ssdp:discover" ++ DQUOTE ++ CRLF ++
  extra ++
  "ST: " ++ st ++ CRLF ++ CRLF.

(** A request whose search target begins with [roku:ecp] and goes on, and
    a request for [upnp:rootdevice] with another header whose text ends in
    [ST: roku:ecp]. *)
Definition longer_target : string := msearch "" "roku:ecp-other:service".

Definition other_header : string :=
  msearch ("X-TEST: roku:ecp" ++ CRLF) "upnp:rootdevice".

Definition requester : RemoteInfo := {| address := "192.168.1.20"; port := 50000 |}.

Definition protocol : Discovery.Protocol :=
  Discovery.constructor "192.168.1.10" "ABC123" "192.168.1.10" 8060.

(** The engine after the socket's ['listening'] event. *)
Definition listening : Discovery.World :=
  snd (Discovery.dispatch Discovery.EvListening (Discovery.fresh protocol)).

(** A server object as the assignments of the constructor leave it, for
    an id function that joins namespace and name. *)
Definition uuid5 (ns name : string) : string := ns ++ "/" ++ name.

Definition server : Server.EmulatedRokuServer :=
  Server.constructor uuid5 "oid" false "ABC123" "192.168.1.10" 8060 None None None.

Definition post (p : string) : Server.Request :=
  {| Server.method := "POST"; Server.path := p;
     Server.host := "192.168.1.10:8060"; Server.remote := "192.168.1.20" |}.

Definition env0 : Server.Env (list Server.HandlerCall) :=
  {| Server.hstate := []; Server.warnings := [] |}.

(** A stand-in for the draft's address library: the name of the range of
    an IPv4 address. *)
Definition range (a : string) : string :=
  match SpecAddress.parse_ipv4 a with
  | Some (x, y, _, _) =>
      if ((x =? 10) || ((x =? 172) && (16 <=? y) && (y <=? 31))
          || ((x =? 192) && (y =? 168)))%bool then "private"
      else if x =? 127 then "loopback"
      else "unicast"
  | None => "unicast"
  end.

Definition isValid (a : string) : bool :=
  match SpecAddress.parse_ipv4 a with
  | Some _ => true
  | None => false
  end.

End Samples.

(** The jitter bound in the words of the specification: the declared
    maximum-wait value modulo six, plus one, in seconds. *)
Definition spec_jitter_bound (hint : Z) : Z := hint mod 6 + 1.

(** The lines of a text in the words of the specification: the text is
    split at line feeds and a carriage return at the end of a line is
    dropped. *)
Fixpoint split_lines (s : string) : list string :=
  match s with
  | EmptyString => [EmptyString]
  | String c r =>
      if Ascii.eqb c "010"%char then EmptyString :: split_lines r
      else match split_lines r with
           | h :: t => String c h :: t
           | [] => [String c EmptyString]
           end
  end.

Fixpoint drop_cr (l : string) : string :=
  match l with
  | EmptyString => EmptyString
  | String c r =>
      match r with
      | EmptyString => if Ascii.eqb c "013"%char then EmptyString else l
      | String _ _ => String c (drop_cr r)
      end
  end.

Definition spec_lines (data : string) : list string :=
  List.map drop_cr (split_lines data).

(** A header line: the name before the first colon and the value after
    it. *)
Fixpoint split_colon (l : string) : option (string * string) :=
  match l with
  | EmptyString => None
  | String c r =>
      if Ascii.eqb c ":"%char then Some (EmptyString, r)
      else match split_colon r with
           | Some (n, v) => Some (String c n, v)
           | None => None
           end
  end.

(** The search targets of a request in the words of the specification:
    the values of its [ST] headers, without the blanks around them. *)
Definition spec_search_targets (data : string) : list string :=
  List.flat_map
    (fun l => match split_colon l with
              | Some (name, value) =>
                  if String.eqb name "ST" then [JS.trim value] else []
              | None => []
              end)
    (List.tl (spec_lines data)).

(** The discovery request in the words of the specification: the first
    line is the M-SEARCH request line and a search target is equal to
    [ssdp:all] or to [roku:ecp]. *)
Definition spec_discovery_request (data : string) : bool :=
  match spec_lines data with
  | first :: _ =>
      (String.eqb first "M-SEARCH * HTTP/1.1"
       && List.existsb
            (fun t => String.eqb t "ssdp:all" || String.eqb t "roku:ecp")
            (spec_search_targets data))%bool
  | [] => false
  end.

(** The test that the code makes, as a proposition: the text begins with
    the M-SEARCH request line and the text [ST: ssdp:all] or [ST: roku:ecp]
    occurs in it. *)
Definition is_search_request (data : string) : Prop :=
  (exists rest, data = "M-SEARCH * HTTP/1.1" ++ rest)
  /\ ((exists a b, data = a ++ "ST: ssdp:all" ++ b)
      \/ (exists a b, data = a ++ "ST: roku:ecp" ++ b)).

(** The world after [setTimeout(cb, delay)]. *)
Definition scheduled (cb : Callback) (delay : JS.number) (w : Discovery.World)
    : Discovery.World :=
  snd (Discovery.setTimeout cb delay w).

(** [random * seconds * 1000]: the delay drawn for a bound of [seconds]. *)
Definition jitter (random : Q) (seconds : Z) : JS.number :=
  JS.mul (JS.mul (JS.Num random) (JS.ofZ seconds)) (JS.ofZ 1000).

(** The declared maximum-wait value in the words of the specification:
    the whole decimal integer that follows the first [MX:]. *)
Definition spec_declared_hint (data : string) : JS.number :=
  let i := JS.indexOf data "MX:" in
  JS.parseInt10 (String.substring (Z.to_nat (i + 3)) (String.length data) data).

(** The engine is stopped: the flag is down and the socket has no handle. *)
Definition stopped (w : Discovery.World) : Prop :=
  Discovery.connected (Discovery.this w) = false
  /\ handle (Discovery.dgramSocket w) = false.

Definition sent (w : Discovery.World) : list Datagram :=
  outbox (Discovery.dgramSocket w).

(** The announcement and the reply to a requester, as the arguments handed
    to [socket.send]. *)
Definition notify_of (p : Discovery.Protocol) : Datagram :=
  {| dg_msg := Discovery.notifyBroadcast p;
     dg_offset := 0;
     dg_length := JS.byteLength (Discovery.notifyBroadcast p);
     dg_port := Discovery.MULTICAST_PORT;
     dg_address := Discovery.MULTICAST_GROUP |}.

Definition reply_of (p : Discovery.Protocol) (rinfo : RemoteInfo) : Datagram :=
  {| dg_msg := Discovery.ssdpResponse p;
     dg_offset := 0;
     dg_length := JS.length (Discovery.ssdpResponse p);
     dg_port := port rinfo;
     dg_address := address rinfo |}.

(** The requesters of the search requests among a sequence of events. *)
Definition solicited (evs : list Discovery.Event) : list RemoteInfo :=
  List.flat_map
    (fun ev =>
       match ev with
       | Discovery.EvMessage msg rinfo _ =>
           if Discovery.isDiscoveryRequest (JS.trim msg) then [rinfo] else []
       | _ => []
       end) evs.

(** The datagram carries the discovery response of [p]. *)
Definition is_reply (p : Discovery.Protocol) (d : Datagram) : bool :=
  String.eqb (dg_msg d) (Discovery.ssdpResponse p).

(** The bookkeeping of the engine is consistent: the live interval
    handles are exactly the stored one, the flag and a stored interval
    imply a socket with a handle, a queued ['close'] event implies a socket
    without one, the pending timers have distinct handles below the next
    fresh one, and an interval is stored exactly while the flag is up. *)
Definition consistent (w : Discovery.World) : Prop :=
  Discovery.intervals w
  = match Discovery.notifyInterval (Discovery.this w) with
    | Some h => [h]
    | None => []
    end
  /\ (Discovery.connected (Discovery.this w) = true ->
      handle (Discovery.dgramSocket w) = true)
  /\ (Discovery.notifyInterval (Discovery.this w) <> None ->
      handle (Discovery.dgramSocket w) = true)
  /\ (close_event (Discovery.dgramSocket w) = true ->
      handle (Discovery.dgramSocket w) = false)
  /\ List.Forall (fun t => (t_handle t < Discovery.next_handle w)%nat)
       (Discovery.timeouts w)
  /\ List.NoDup (List.map t_handle (Discovery.timeouts w))
  /\ (Discovery.connected (Discovery.this w) = true
      <-> Discovery.notifyInterval (Discovery.this w) <> None).

(** The payloads of the world are those of [p]. *)
Definition payloads_of (p : Discovery.Protocol) (w : Discovery.World) : Prop :=
  Discovery.ssdpResponse (Discovery.this w) = Discovery.ssdpResponse p
  /\ Discovery.notifyBroadcast (Discovery.this w) = Discovery.notifyBroadcast p.

(** Every pending timer replies to one of [rs], and every datagram sent is
    the announcement or the reply to one of [rs]. *)
Definition answers_only (p : Discovery.Protocol) (rs : list RemoteInfo)
    (w : Discovery.World) : Prop :=
  List.Forall (fun t => exists r, t_callback t = Reply r /\ In r rs)
    (Discovery.timeouts w)
  /\ List.Forall (fun d => d = notify_of p
                           \/ exists r, In r rs /\ d = reply_of p r)
       (sent w).

(* ===================================================================== *)
(** * Properties of the string operations *)
(* ===================================================================== *)

Lemma append_assoc (a b c : string) : (a ++ b) ++ c = a ++ b ++ c.
Proof. induction a as [|x a IH]; simpl; [reflexivity|]. rewrite IH. reflexivity. Qed.

Lemma startsWith_app (p r : string) : JS.startsWith (p ++ r) p = true.
Proof.
  induction p as [|a p IH]; simpl.
  - destruct r; reflexivity.
  - rewrite Ascii.eqb_refl. exact IH.
Qed.

Lemma startsWith_inv (s p : string) :
  JS.startsWith s p = true -> exists r, s = p ++ r.
Proof.
  revert s. induction p as [|a p IH]; intros s H.
  - exists s. reflexivity.
  - destruct s as [|b s]; simpl in H; [discriminate|].
    apply andb_prop in H. destruct H as [Hab Hs].
    apply Ascii.eqb_eq in Hab. subst b.
    destruct (IH s Hs) as [r ->]. exists r. reflexivity.
Qed.

Lemma startsWith_iff (s p : string) :
  JS.startsWith s p = true <-> exists r, s = p ++ r.
Proof.
  split.
  - apply startsWith_inv.
  - intros [r ->]. apply startsWith_app.
Qed.

Lemma includes_unfold (s p : string) :
  JS.includes s p =
  (JS.startsWith s p
   || match s with
      | EmptyString => false
      | String _ s' => JS.includes s' p
      end)%bool.
Proof. destruct s; reflexivity. Qed.

Lemma includes_app (a p b : string) : JS.includes (a ++ p ++ b) p = true.
Proof.
  induction a as [|c a IH].
  - simpl append. rewrite includes_unfold, startsWith_app. reflexivity.
  - simpl append. rewrite includes_unfold. simpl. rewrite IH.
    apply orb_true_r.
Qed.

Lemma includes_inv (s p : string) :
  JS.includes s p = true -> exists a b, s = a ++ p ++ b.
Proof.
  induction s as [|c s IH]; intros H; rewrite includes_unfold in H.
  - rewrite orb_false_r in H. apply startsWith_inv in H.
    destruct H as [r Hr]. exists "", r. exact Hr.
  - apply orb_prop in H. destruct H as [H|H].
    + apply startsWith_inv in H. destruct H as [r Hr].
      exists "", r. exact Hr.
    + destruct (IH H) as (a & b & ->). exists (String c a), b. reflexivity.
Qed.

Lemma includes_iff (s p : string) :
  JS.includes s p = true <-> exists a b, s = a ++ p ++ b.
Proof.
  split.
  - apply includes_inv.
  - intros (a & b & ->). apply includes_app.
Qed.

Lemma strip_prefix_app (p v : string) : Server.strip_prefix p (p ++ v) = Some v.
Proof.
  induction p as [|a p IH]; simpl.
  - destruct v; reflexivity.
  - rewrite Ascii.eqb_refl. exact IH.
Qed.

(** [indexOf] finds nothing exactly when [includes] fails. *)
Lemma indexOfFrom_includes (s p : string) (i : Z) :
  0 <= i ->
  (JS.includes s p = true -> i <= JS.indexOfFrom s p i)
  /\ (JS.includes s p = false -> JS.indexOfFrom s p i = -1).
Proof.
  revert i. induction s as [|c s IH]; intros i Hi; rewrite includes_unfold.
  - change (JS.indexOfFrom "" p i)
      with (if JS.startsWith "" p then i else -1).
    destruct (JS.startsWith "" p); cbn [orb]; split; intros H;
      try discriminate; lia.
  - change (JS.indexOfFrom (String c s) p i)
      with (if JS.startsWith (String c s) p then i
            else JS.indexOfFrom s p (i + 1)).
    destruct (JS.startsWith (String c s) p); cbn [orb].
    + split; intros H; [lia|discriminate].
    + destruct (IH (i + 1) ltac:(lia)) as [H1 H2]. split; intros H.
      * specialize (H1 H). lia.
      * exact (H2 H).
Qed.

(** A found index is the start of the first occurrence. *)
Lemma indexOfFrom_first (s p : string) (k i : Z) :
  0 <= k -> JS.indexOfFrom s p k = i -> i <> -1 ->
  exists a b,
    s = a ++ p ++ b
    /\ Z.of_nat (String.length a) = i - k
    /\ (forall a' b', s = a' ++ p ++ b' ->
                      (String.length a <= String.length a')%nat).
Proof.
  revert k i. induction s as [|c s IH]; intros k i Hk E Hi.
  - change (JS.indexOfFrom "" p k)
      with (if JS.startsWith "" p then k else -1) in E.
    destruct (JS.startsWith "" p) eqn:Sp; [|congruence].
    apply startsWith_inv in Sp. destruct Sp as [r Hr].
    exists "", r. split; [exact Hr|]. split; [simpl; lia|].
    intros a' b' _. simpl. lia.
  - change (JS.indexOfFrom (String c s) p k)
      with (if JS.startsWith (String c s) p then k
            else JS.indexOfFrom s p (k + 1)) in E.
    destruct (JS.startsWith (String c s) p) eqn:Sp.
    + apply startsWith_inv in Sp. destruct Sp as [r Hr].
      exists "", r. split; [exact Hr|]. split; [simpl; lia|].
      intros a' b' _. simpl. lia.
    + destruct (IH (k + 1) i ltac:(lia) E Hi) as (a & b & Hs & Hl & Hmin).
      exists (String c a), b. split; [simpl; rewrite <- Hs; reflexivity|].
      split; [cbn [String.length]; lia|].
      intros a' b' Ha'. destruct a' as [|c' a'].
      * simpl in Ha'. rewrite Ha', startsWith_app in Sp. discriminate.
      * simpl in Ha'. injection Ha' as _ Ha'.
        specialize (Hmin a' b' Ha'). cbn [String.length]. lia.
Qed.

(* ===================================================================== *)
(** * The delay of a reply *)
(* ===================================================================== *)

Lemma includes_indexOf (s p : string) :
  JS.includes s p = true <-> JS.indexOf s p <> -1.
Proof.
  unfold JS.indexOf.
  destruct (indexOfFrom_includes s p 0 ltac:(lia)) as [H1 H2].
  destruct (JS.includes s p) eqn:E; split; intros H; try reflexivity.
  - specialize (H1 eq_refl). lia.
  - discriminate.
  - exfalso. apply H. apply H2. reflexivity.
Qed.

(** On a single code unit [parseInt] yields the digit's value, or [NaN]
    when the unit is not a decimal digit. *)
Lemma parseInt10_unit (c : ascii) :
  JS.parseInt10 (String c EmptyString)
  = match JS.digitValue c with
    | Some d => JS.ofZ d
    | None => JS.NaN
    end.
Proof.
  destruct c as [[] [] [] [] [] [] [] []]; vm_compute; reflexivity.
Qed.

Lemma parseInt10_undefined : JS.parseInt10 (JS.toString None) = JS.NaN.
Proof. reflexivity. Qed.

Lemma digit_bound (c : ascii) (d : Z) :
  JS.digitValue c = Some d ->
  JS.add (JS.rem (JS.ofZ d) (JS.ofZ (Discovery.MULTICAST_MAX_DELAY + 1)))
         (JS.ofZ 1)
  = JS.ofZ (spec_jitter_bound d).
Proof.
  destruct c as [[] [] [] [] [] [] [] []]; intros H; vm_compute in H;
    try discriminate; injection H as <-; vm_compute; reflexivity.
Qed.

(** Without an [MX:] token the bound is six seconds. *)
Lemma replyDelay_no_hint (data : string) (random : Q) :
  JS.includes data "MX:" = false ->
  Discovery.replyDelay data random = jitter random 6.
Proof.
  intros H. unfold Discovery.replyDelay.
  assert (E : JS.indexOf data "MX:" = -1).
  { destruct (Z.eq_dec (JS.indexOf data "MX:") (-1)) as [e|n]; [exact e|].
    apply includes_indexOf in n. congruence. }
  rewrite E. reflexivity.
Qed.

(** With a decimal digit [d] four units after the first [MX:] the bound
    is [(d mod 6) + 1] seconds. *)
Lemma replyDelay_digit (data : string) (random : Q) (c : ascii) (d : Z) :
  JS.includes data "MX:" = true ->
  JS.at_ data (JS.indexOf data "MX:" + 4) = Some c ->
  JS.digitValue c = Some d ->
  Discovery.replyDelay data random = jitter random (spec_jitter_bound d).
Proof.
  intros Hin Hat Hd. unfold Discovery.replyDelay.
  apply includes_indexOf in Hin. apply Z.eqb_neq in Hin.
  rewrite Hin, Hat. cbn [negb JS.toString].
  rewrite parseInt10_unit, Hd, (digit_bound c d Hd). reflexivity.
Qed.

(** The delay is the draw scaled by the bound, in milliseconds. *)
Lemma jitter_value (random : Q) (seconds : Z) :
  exists q, jitter random seconds = JS.Num q
            /\ (q == random * inject_Z (seconds * 1000))%Q.
Proof.
  unfold jitter, JS.mul, JS.ofZ. eexists. split; [reflexivity|].
  rewrite !Qred_correct, inject_Z_mult. ring.
Qed.

(** A draw in [[0, 1)] gives a delay in [[0, seconds * 1000)]. *)
Lemma jitter_range (random : Q) (seconds : Z) :
  (0 <= random)%Q -> (random < 1)%Q -> 0 < seconds ->
  exists q, jitter random seconds = JS.Num q
            /\ (0 <= q)%Q /\ (q < inject_Z (seconds * 1000))%Q.
Proof.
  intros H0 H1 Hs. destruct (jitter_value random seconds) as (q & Hq & E).
  exists q. split; [exact Hq|]. rewrite E.
  assert (K : (0 < inject_Z (seconds * 1000))%Q).
  { change 0%Q with (inject_Z 0). rewrite <- Zlt_Qlt. lia. }
  split.
  - apply Qmult_le_0_compat; [exact H0|]. apply Qlt_le_weak. exact K.
  - rewrite <- (Qmult_1_l (inject_Z (seconds * 1000))) at 2.
    apply Qmult_lt_compat_r; assumption.
Qed.

(** Every point of the interval is the delay of some draw. *)
Lemma jitter_onto (seconds : Z) (t : Q) :
  0 < seconds -> (0 <= t)%Q -> (t < inject_Z (seconds * 1000))%Q ->
  exists random q,
    (0 <= random)%Q /\ (random < 1)%Q
    /\ jitter random seconds = JS.Num q /\ (q == t)%Q.
Proof.
  intros Hs H0 H1.
  assert (K : (0 < inject_Z (seconds * 1000))%Q).
  { change 0%Q with (inject_Z 0). rewrite <- Zlt_Qlt. lia. }
  assert (Kn : ~ (inject_Z (seconds * 1000) == 0)%Q).
  { intros E. rewrite E in K. exact (Qlt_irrefl _ K). }
  set (r := (t / inject_Z (seconds * 1000))%Q).
  destruct (jitter_value r seconds) as (q & Hq & E).
  exists r, q. repeat split.
  - unfold r. apply Qle_shift_div_l; [exact K|]. rewrite Qmult_0_l. exact H0.
  - unfold r. apply Qlt_shift_div_r; [exact K|]. rewrite Qmult_1_l. exact H1.
  - exact Hq.
  - rewrite E. unfold r. field. exact Kn.
Qed.

(** C10. For a matching datagram that holds the token [MX:], when the code
    unit four positions after the start of the first [MX:] is missing or is
    not a decimal digit, the computed delay is [NaN], and that is the delay
    the reply is scheduled with. *)
Theorem hint_without_digit_is_NaN
    (msg : string) (rinfo : RemoteInfo) (random : Q) (w : Discovery.World) :
  Discovery.isDiscoveryRequest (JS.trim msg) = true ->
  JS.includes (JS.trim msg) "MX:" = true ->
  (forall c, JS.at_ (JS.trim msg) (JS.indexOf (JS.trim msg) "MX:" + 4) = Some c ->
             JS.isDigit c = false) ->
  Discovery.replyDelay (JS.trim msg) random = JS.NaN
  /\ Discovery.datagramReceived msg rinfo random w
     = (Normal tt, scheduled (Reply rinfo) JS.NaN w).
Proof.
  intros Hreq Hin Hnd.
  assert (D : Discovery.replyDelay (JS.trim msg) random = JS.NaN).
  { unfold Discovery.replyDelay.
    apply includes_indexOf in Hin. apply Z.eqb_neq in Hin. rewrite Hin.
    cbn [negb].
    destruct (JS.at_ (JS.trim msg) (JS.indexOf (JS.trim msg) "MX:" + 4))
      as [c|] eqn:E.
    - specialize (Hnd c eq_refl). cbn [JS.toString].
      rewrite parseInt10_unit. unfold JS.isDigit in Hnd.
      destruct (JS.digitValue c); [discriminate|]. reflexivity.
    - rewrite parseInt10_undefined. reflexivity. }
  split; [exact D|].
  unfold Discovery.datagramReceived, Discovery.isDiscoveryRequest in *.
  apply negb_true_iff in Hreq. rewrite Hreq, D. reflexivity.
Qed.

Lemma hint_without_digit_is_NaN_witness :
  Discovery.replyDelay
    (JS.trim (Samples.msearch ("MX:3" ++ CRLF) "roku:ecp")) (1 # 2) = JS.NaN
  /\ Discovery.datagramReceived (Samples.msearch ("MX:3" ++ CRLF) "roku:ecp")
       Samples.requester (1 # 2) Samples.listening
     = (Normal tt, scheduled (Reply Samples.requester) JS.NaN Samples.listening).
Proof.
  apply (hint_without_digit_is_NaN
           (Samples.msearch ("MX:3" ++ CRLF) "roku:ecp")
           Samples.requester (1 # 2) Samples.listening).
  - vm_compute. reflexivity.
  - vm_compute. reflexivity.
  - intros c H. vm_compute in H. injection H as <-. vm_compute. reflexivity.
Defined.

(** The token at the very end of the payload: the unit read is [undefined]. *)
Example hint_at_end_is_NaN :
  Discovery.replyDelay
    (JS.trim ("M-SEARCH * HTTP/1.1" ++ CRLF ++ "ST: roku:ecp" ++ CRLF ++ "MX:"))
    (1 # 2) = JS.NaN.
Proof. vm_compute. reflexivity. Qed.

(** C3. A request that declares the maximum wait [10] matches and is
    given the bound of its first digit: the delay is [random * 2 * 1000],
    below two seconds, where the declared value gives the bound
    [(10 mod 6) + 1 = 5] seconds. *)
Theorem two_digit_hint_reads_one_digit (random : Q) :
  let data := JS.trim (Samples.msearch ("MX: 10" ++ CRLF) "roku:ecp") in
  Discovery.isDiscoveryRequest data = true
  /\ spec_declared_hint data = JS.ofZ 10
  /\ spec_jitter_bound 10 = 5
  /\ Discovery.replyDelay data random = jitter random 2
  /\ Discovery.replyDelay data (9 # 10) = JS.Num 1800
  /\ jitter (9 # 10) (spec_jitter_bound 10) = JS.Num 4500.
Proof.
  intros data. split; [vm_compute; reflexivity|].
  split; [vm_compute; reflexivity|].
  split; [reflexivity|].
  split; [|split; vm_compute; reflexivity].
  apply (replyDelay_digit data random "1"%char 1); vm_compute; reflexivity.
Qed.

(** X8. The part of the delay rule that the code follows: when the code
    unit four positions after the first [MX:] is the decimal digit [d] (a
    one-digit hint written [MX: d]), the delay is a number of milliseconds
    in [[0, ((d mod 6) + 1) * 1000)]: never [NaN], never negative, and
    below the bound that the digit declares. *)
Lemma one_digit_hint_range (data : string) (random : Q) (c : ascii) (d : Z) :
  JS.includes data "MX:" = true ->
  JS.at_ data (JS.indexOf data "MX:" + 4) = Some c ->
  JS.digitValue c = Some d ->
  (0 <= random)%Q -> (random < 1)%Q ->
  exists q, Discovery.replyDelay data random = JS.Num q
            /\ (0 <= q)%Q /\ (q < inject_Z (spec_jitter_bound d * 1000))%Q.
Proof.
  intros Hin Hat Hd H0 H1. rewrite (replyDelay_digit data random c d Hin Hat Hd).
  assert (Hb : 0 < spec_jitter_bound d).
  { unfold spec_jitter_bound. pose proof (Z.mod_pos_bound d 6). lia. }
  exact (jitter_range random _ H0 H1 Hb).
Qed.

(** Without any [MX:] in the text the delay is a number of milliseconds
    in [[0, 6000)]. *)
Lemma no_hint_range (data : string) (random : Q) :
  JS.includes data "MX:" = false ->
  (0 <= random)%Q -> (random < 1)%Q ->
  exists q, Discovery.replyDelay data random = JS.Num q
            /\ (0 <= q)%Q /\ (q < inject_Z 6000)%Q.
Proof.
  intros Hin H0 H1. rewrite (replyDelay_no_hint data random Hin).
  exact (jitter_range random 6 H0 H1 ltac:(lia)).
Qed.

Example hint_7_bound :
  Discovery.replyDelay
    (JS.trim (Samples.msearch ("MX: 7" ++ CRLF) "roku:ecp")) (1 # 2)
  = jitter (1 # 2) 2.
Proof. vm_compute. reflexivity. Qed.

(* ===================================================================== *)
(** * Which datagrams are answered *)
(* ===================================================================== *)

Lemma isDiscoveryRequest_iff (data : string) :
  Discovery.isDiscoveryRequest data = true <-> is_search_request data.
Proof.
  unfold Discovery.isDiscoveryRequest, is_search_request.
  rewrite negb_true_iff, orb_false_iff, !negb_false_iff, orb_true_iff.
  rewrite startsWith_iff, !includes_iff. reflexivity.
Qed.

Lemma scheduled_timeouts (cb : Callback) (delay : JS.number)
    (w : Discovery.World) :
  Discovery.timeouts (scheduled cb delay w)
  = (Discovery.timeouts w
     ++ [{| t_handle := Discovery.next_handle w; t_delay := delay;
            t_callback := cb |}])%list.
Proof. reflexivity. Qed.

Lemma scheduled_changes (cb : Callback) (delay : JS.number)
    (w : Discovery.World) :
  scheduled cb delay w <> w.
Proof.
  intros E. apply (f_equal Discovery.timeouts) in E.
  rewrite scheduled_timeouts in E.
  apply (f_equal (@List.length Timer)) in E.
  rewrite List.length_app in E. simpl in E. lia.
Qed.

Lemma datagramReceived_cases (msg : string) (rinfo : RemoteInfo) (random : Q)
    (w : Discovery.World) :
  Discovery.datagramReceived msg rinfo random w
  = if Discovery.isDiscoveryRequest (JS.trim msg)
    then (Normal tt,
          scheduled (Reply rinfo)
            (Discovery.replyDelay (JS.trim msg) random) w)
    else (Normal tt, w).
Proof.
  unfold Discovery.datagramReceived, Discovery.isDiscoveryRequest.
  destruct (negb (JS.startsWith (JS.trim msg) "M-SEARCH * HTTP/1.1")
            || negb (JS.includes (JS.trim msg) "ST: ssdp:all"
                     || JS.includes (JS.trim msg) "ST: roku:ecp"))%bool;
    reflexivity.
Qed.

Lemma split_lines_head (s h : string) (t : list string) :
  split_lines s = h :: t -> exists b, s = h ++ b.
Proof.
  revert h t. induction s as [|c r IH]; intros h t H.
  - cbn in H. injection H as <- _. exists "". reflexivity.
  - cbn [split_lines] in H. destruct (Ascii.eqb c "010"%char).
    + injection H as <- _. exists (String c r). reflexivity.
    + destruct (split_lines r) as [|h' t'] eqn:E.
      * injection H as <- _. exists r. reflexivity.
      * injection H as <- _. destruct (IH h' t' eq_refl) as [b ->].
        exists b. reflexivity.
Qed.

Lemma split_lines_substring (s l : string) :
  In l (split_lines s) -> exists a b, s = a ++ l ++ b.
Proof.
  revert l. induction s as [|c r IH]; intros l H.
  - cbn in H. destruct H as [<-|[]]. exists "", "". reflexivity.
  - cbn [split_lines] in H. destruct (Ascii.eqb c "010"%char).
    + destruct H as [<-|H].
      * exists "", (String c r). reflexivity.
      * destruct (IH l H) as (a & b & ->). exists (String c a), b. reflexivity.
    + destruct (split_lines r) as [|h t] eqn:E.
      * destruct H as [<-|[]]. exists "", r. reflexivity.
      * destruct H as [<-|H].
        -- destruct (split_lines_head r h t E) as [b ->].
           exists "", b. reflexivity.
        -- destruct (IH l (or_intror H)) as (a & b & ->).
           exists (String c a), b. reflexivity.
Qed.

Lemma drop_cr_prefix (l : string) : exists b, l = drop_cr l ++ b.
Proof.
  induction l as [|c r IH].
  - exists "". reflexivity.
  - cbn [drop_cr]. destruct r as [|c' r'].
    + destruct (Ascii.eqb c "013"%char).
      * exists (String c ""). reflexivity.
      * exists "". reflexivity.
    + destruct IH as [b E]. exists b. cbn [append]. rewrite <- E. reflexivity.
Qed.

(** A line of a text occurs in the text. *)
Lemma spec_lines_substring (data l : string) :
  In l (spec_lines data) -> exists a b, data = a ++ l ++ b.
Proof.
  unfold spec_lines. intros H. apply List.in_map_iff in H.
  destruct H as (x & <- & Hx).
  destruct (split_lines_substring data x Hx) as (a & b & ->).
  destruct (drop_cr_prefix x) as [b' E].
  exists a, (b' ++ b). f_equal.
  rewrite <- (append_assoc (drop_cr x) b' b), <- E. reflexivity.
Qed.

(** C5. A datagram gets a reply scheduled if and only if its trimmed text
    begins with the M-SEARCH request line and the text [ST: ssdp:all] or
    [ST: roku:ecp] occurs in it; any other datagram leaves the engine as it
    was; no datagram makes the handler throw; requests for
    [upnp:rootdevice] and for the DIAL service in which neither text
    occurs schedule nothing; and a text that begins with the request line
    and has the line [ST: ssdp:all] or the line [ST: roku:ecp] passes the
    test. *)
Theorem reply_scheduled_iff_search_request
    (msg : string) (rinfo : RemoteInfo) (random : Q) (w : Discovery.World) :
  (is_search_request (JS.trim msg)
   <-> snd (Discovery.datagramReceived msg rinfo random w)
       = scheduled (Reply rinfo) (Discovery.replyDelay (JS.trim msg) random) w)
  /\ (~ is_search_request (JS.trim msg)
      <-> snd (Discovery.datagramReceived msg rinfo random w) = w)
  /\ fst (Discovery.datagramReceived msg rinfo random w) = Normal tt
  /\ Discovery.datagramReceived
       (Samples.msearch ("MX: 3" ++ CRLF) "upnp:rootdevice") rinfo random w
     = (Normal tt, w)
  /\ Discovery.datagramReceived
       (Samples.msearch ("MX: 3" ++ CRLF)
          "urn:dial-multiscreen-org:service:dial:1") rinfo random w
     = (Normal tt, w)
  /\ (forall data,
        (exists rest, data = "M-SEARCH * HTTP/1.1" ++ rest) ->
        In "ST: ssdp:all" (spec_lines data)
        \/ In "ST: roku:ecp" (spec_lines data) ->
        is_search_request data).
Proof.
  assert (L : forall data,
            (exists rest, data = "M-SEARCH * HTTP/1.1" ++ rest) ->
            In "ST: ssdp:all" (spec_lines data)
            \/ In "ST: roku:ecp" (spec_lines data) ->
            is_search_request data).
  { intros data Hl [Hs|Hs]; (split; [exact Hl|]); [left|right];
      exact (spec_lines_substring data _ Hs). }
  rewrite <- isDiscoveryRequest_iff, datagramReceived_cases.
  split; [split|split; [split|split; [|split; [|split; [|exact L]]]]].
  - intros ->. reflexivity.
  - destruct (Discovery.isDiscoveryRequest (JS.trim msg)); [reflexivity|].
    cbn [snd]. intros E. symmetry in E. exfalso.
    exact (scheduled_changes _ _ _ E).
  - intros H. apply not_true_is_false in H. rewrite H. reflexivity.
  - destruct (Discovery.isDiscoveryRequest (JS.trim msg)); [|discriminate].
    cbn [snd]. intros E _. exact (scheduled_changes _ _ _ E).
  - destruct (Discovery.isDiscoveryRequest (JS.trim msg)); reflexivity.
  - rewrite datagramReceived_cases. reflexivity.
  - rewrite datagramReceived_cases. reflexivity.
Qed.

(** A request for [roku:ecp] is answered: the theorem at a sample. *)
Lemma reply_scheduled_iff_search_request_witness :
  snd (Discovery.datagramReceived (Samples.msearch "" "roku:ecp")
         Samples.requester (1 # 2) Samples.listening)
  = scheduled (Reply Samples.requester) (JS.Num 3000) Samples.listening.
Proof.
  apply (proj1 (proj1 (reply_scheduled_iff_search_request
                         (Samples.msearch "" "roku:ecp")
                         Samples.requester (1 # 2) Samples.listening))).
  apply isDiscoveryRequest_iff. vm_compute. reflexivity.
Defined.

(** Two requests that have no search target equal to [ssdp:all] or
    [roku:ecp] and are answered all the same: one whose only search target
    is [roku:ecp-other:service], and one whose only search target is
    [upnp:rootdevice] and that has the header [X-TEST: roku:ecp]. *)
Lemma unrelated_target_answered :
  spec_search_targets (JS.trim Samples.longer_target)
  = ["roku:ecp-other:service"]
  /\ spec_discovery_request (JS.trim Samples.longer_target) = false
  /\ Discovery.datagramReceived Samples.longer_target Samples.requester (1 # 2)
       Samples.listening
     = (Normal tt,
        scheduled (Reply Samples.requester) (JS.Num 3000) Samples.listening)
  /\ spec_search_targets (JS.trim Samples.other_header) = ["upnp:rootdevice"]
  /\ spec_discovery_request (JS.trim Samples.other_header) = false
  /\ Discovery.datagramReceived Samples.other_header Samples.requester (1 # 2)
       Samples.listening
     = (Normal tt,
        scheduled (Reply Samples.requester) (JS.Num 3000) Samples.listening)
  /\ scheduled (Reply Samples.requester) (JS.Num 3000) Samples.listening
     <> Samples.listening.
Proof.
  split; [vm_compute; reflexivity|]. split; [vm_compute; reflexivity|].
  split; [vm_compute; reflexivity|]. split; [vm_compute; reflexivity|].
  split; [vm_compute; reflexivity|]. split; [vm_compute; reflexivity|].
  apply scheduled_changes.
Qed.

(** The words of the specification and the test of the code agree on the
    plain requests. *)
Example spec_discovery_request_samples :
  List.map (fun m => (spec_discovery_request (JS.trim m),
                      Discovery.isDiscoveryRequest (JS.trim m)))
    [ Samples.msearch "" "roku:ecp"; Samples.msearch "" "ssdp:all";
      Samples.msearch ("MX: 3" ++ CRLF) "upnp:rootdevice";
      "NOTIFY * HTTP/1.1" ++ CRLF ++ "ST: roku:ecp" ++ CRLF ]
  = [(true, true); (true, true); (false, false); (false, false)].
Proof. vm_compute. reflexivity. Qed.

(** The request line alone, a NOTIFY and an empty datagram are not
    answered; leading and trailing white space does not matter. *)
Example not_answered :
  Discovery.isDiscoveryRequest (JS.trim ("M-SEARCH * HTTP/1.1" ++ CRLF)) = false
  /\ Discovery.isDiscoveryRequest
       (JS.trim ("NOTIFY * HTTP/1.1" ++ CRLF ++ "ST: roku:ecp" ++ CRLF)) = false
  /\ Discovery.isDiscoveryRequest (JS.trim "") = false
  /\ Discovery.isDiscoveryRequest
       (JS.trim (CRLF ++ "  " ++ Samples.msearch "" "ssdp:all")) = true.
Proof. vm_compute. repeat split. Qed.

(* ===================================================================== *)
(** * Stopping the engine *)
(* ===================================================================== *)

(** What [close] leaves behind, whether it returns or throws. *)
Lemma close_post (w : Discovery.World) :
  fst (Discovery.close w)
  = (if handle (Discovery.dgramSocket w) then Normal tt
     else Throw ERR_SOCKET_DGRAM_NOT_RUNNING)
  /\ stopped (snd (Discovery.close w))
  /\ Discovery.notifyInterval (Discovery.this (snd (Discovery.close w))) = None
  /\ sent (snd (Discovery.close w)) = sent w
  /\ Discovery.timeouts (snd (Discovery.close w)) = Discovery.timeouts w
  /\ (forall h, Discovery.notifyInterval (Discovery.this w) = Some h ->
                ~ In h (Discovery.intervals (snd (Discovery.close w)))).
Proof.
  unfold Discovery.close, Eff.bind, Eff.modify, Eff.gets,
    Discovery.clearInterval, Discovery.socket_close, Eff.ret, stopped, sent.
  destruct w as [p s ts ivs n]. destruct p as [a b c d e f ni co].
  destruct s as [hd ce ob]. cbn.
  destruct ni as [h|]; cbn; destruct hd; cbn; repeat split; try discriminate;
    intros h' E; injection E as <-; rewrite List.filter_In;
    intros [_ F]; rewrite Nat.eqb_refl in F; discriminate.
Qed.

Lemma valid_multicast_port :
  Discovery.valid_port Discovery.MULTICAST_PORT = true.
Proof. reflexivity. Qed.

Lemma send_stopped (d : Datagram) (w : Discovery.World) :
  Discovery.valid_port (dg_port d) = true ->
  handle (Discovery.dgramSocket w) = false ->
  Discovery.socket_send d w = (Throw ERR_SOCKET_DGRAM_NOT_RUNNING, w).
Proof.
  intros P H. unfold Discovery.socket_send. rewrite P, H. reflexivity.
Qed.

(** With the flag down the reply closure returns at once. *)
Lemma run_callback_disconnected (cb : Callback) (w : Discovery.World) :
  Discovery.connected (Discovery.this w) = false ->
  Discovery.run_callback cb w = (Normal tt, w).
Proof.
  intros H. destruct cb as [rinfo].
  unfold Discovery.run_callback, Eff.bind, Eff.gets.
  rewrite H. reflexivity.
Qed.


(** No event brings a stopped engine back or sends anything. *)
Lemma dispatch_stopped (ev : Discovery.Event) (w : Discovery.World) :
  stopped w ->
  stopped (snd (Discovery.dispatch ev w))
  /\ sent (snd (Discovery.dispatch ev w)) = sent w.
Proof.
  intros [Hc Hh]. destruct ev as [|msg rinfo random| |h|h|]; cbn [Discovery.dispatch].
  - rewrite Hh. split; [split; assumption|reflexivity].
  - rewrite Hh. split; [split; assumption|reflexivity].
  - destruct (close_event (Discovery.dgramSocket w)).
    + unfold Discovery.connectionLost.
      match goal with
      | |- context [Discovery.close ?x] =>
          destruct (close_post x) as (_ & S & _ & O & _)
      end.
      split; [exact S|]. rewrite O. reflexivity.
    + split; [split; assumption|reflexivity].
  - destruct (Discovery.take_timer h (Discovery.timeouts w)) as [[t rest]|].
    + rewrite run_callback_disconnected by exact Hc.
      split; [split; assumption|reflexivity].
    + split; [split; assumption|reflexivity].
  - destruct (List.existsb (Nat.eqb h) (Discovery.intervals w)).
    + unfold Discovery.multicastNotify, Eff.bind, Eff.gets.
      rewrite send_stopped by (reflexivity || exact Hh).
      split; [split; assumption|reflexivity].
    + split; [split; assumption|reflexivity].
  - destruct (close_post w) as (_ & S & _ & O & _). split; assumption.
Qed.

Lemma run_unfold (ev : Discovery.Event) (evs : list Discovery.Event)
    (w : Discovery.World) :
  snd (Discovery.run (ev :: evs) w)
  = snd (Discovery.run evs (snd (Discovery.dispatch ev w))).
Proof.
  cbn [Discovery.run]. destruct (Discovery.dispatch ev w) as [c w1].
  cbn [snd]. destruct (Discovery.run evs w1). reflexivity.
Qed.

Lemma run_stopped (evs : list Discovery.Event) (w : Discovery.World) :
  stopped w ->
  stopped (snd (Discovery.run evs w))
  /\ sent (snd (Discovery.run evs w)) = sent w.
Proof.
  revert w. induction evs as [|ev evs IH]; intros w H.
  - split; [exact H|reflexivity].
  - rewrite run_unfold. destruct (dispatch_stopped ev w H) as [S O].
    destruct (IH _ S) as [S' O']. split; [exact S'|]. rewrite O'. exact O.
Qed.

Lemma timeout_stopped (h : nat) (w : Discovery.World) :
  stopped w -> fst (Discovery.dispatch (Discovery.EvTimeout h) w) = Normal tt.
Proof.
  intros [Hc _]. cbn [Discovery.dispatch].
  destruct (Discovery.take_timer h (Discovery.timeouts w)) as [[t rest]|];
    [|reflexivity].
  rewrite run_callback_disconnected by exact Hc. reflexivity.
Qed.

(** C2. A reply closure that runs while [connected] is false returns
    without sending.  When [close()] is called after a datagram was
    received, the reply timer of a matching request is still pending, and
    whatever events follow (pending reply timers among them, in any
    order), every reply timer that fires returns normally and the socket
    has sent nothing more than it had before. *)
Theorem no_reply_after_stop
    (w : Discovery.World) (msg : string) (rinfo : RemoteInfo) (random : Q)
    (evs : list Discovery.Event) (h : nat) :
  let flag_down := Discovery.set_connected false w in
  let received := snd (Discovery.datagramReceived msg rinfo random w) in
  let closed := snd (Discovery.close received) in
  let later := snd (Discovery.run evs closed) in
  Discovery.run_callback (Reply rinfo) flag_down = (Normal tt, flag_down)
  /\ (is_search_request (JS.trim msg) ->
      In {| t_handle := Discovery.next_handle w;
            t_delay := Discovery.replyDelay (JS.trim msg) random;
            t_callback := Reply rinfo |} (Discovery.timeouts closed))
  /\ sent later = sent w
  /\ fst (Discovery.dispatch (Discovery.EvTimeout h) later) = Normal tt
  /\ sent (snd (Discovery.dispatch (Discovery.EvTimeout h) later)) = sent w.
Proof.
  intros flag_down received closed later.
  destruct (close_post received) as (_ & S & _ & O & T & _).
  destruct (run_stopped evs _ S) as [S' O'].
  destruct (dispatch_stopped (Discovery.EvTimeout h) _ S') as [_ O''].
  assert (R : sent received = sent w).
  { unfold received. rewrite datagramReceived_cases.
    destruct (Discovery.isDiscoveryRequest (JS.trim msg)); reflexivity. }
  split; [|split; [|split; [|split]]].
  - apply run_callback_disconnected. reflexivity.
  - intros Hreq. apply isDiscoveryRequest_iff in Hreq.
    unfold closed. rewrite T. unfold received.
    rewrite datagramReceived_cases, Hreq. cbn [snd].
    rewrite scheduled_timeouts. apply List.in_or_app. right. left. reflexivity.
  - unfold later, closed. rewrite O', O. exact R.
  - apply timeout_stopped. exact S'.
  - fold closed later in O''. rewrite O''. unfold later, closed.
    rewrite O', O. exact R.
Qed.

(** A matching request, then [close()], then the timer: nothing but the
    first NOTIFY was sent.  Without the [close()] the reply goes out. *)
Example stop_before_fire :
  let evs := [Discovery.EvMessage (Samples.msearch "" "roku:ecp")
                Samples.requester (1 # 2);
              Discovery.EvStop; Discovery.EvTimeout 1] in
  fst (Discovery.run evs Samples.listening) = [Normal tt; Normal tt; Normal tt]
  /\ List.map dg_address (sent (snd (Discovery.run evs Samples.listening)))
     = ["239.255.255.250"].
Proof. vm_compute. split; reflexivity. Qed.

Example fire_while_listening :
  let evs := [Discovery.EvMessage (Samples.msearch "" "roku:ecp")
                Samples.requester (1 # 2);
              Discovery.EvTimeout 1] in
  List.map dg_address (sent (snd (Discovery.run evs Samples.listening)))
  = ["239.255.255.250"; "192.168.1.20"].
Proof. vm_compute. reflexivity. Qed.

(** C4. [close()] on an engine that was already closed throws: the second
    of two calls does, and so does the call made by [connectionLost] when
    the socket's ['close'] event follows a [close()].  The flag is down and
    the interval handle cleared all the same. *)
Theorem close_again_throws (w : Discovery.World) :
  let once := snd (Discovery.close w) in
  fst (Discovery.close once) = Throw ERR_SOCKET_DGRAM_NOT_RUNNING
  /\ stopped (snd (Discovery.close once))
  /\ Discovery.notifyInterval (Discovery.this (snd (Discovery.close once))) = None
  /\ fst (Discovery.run [Discovery.EvStop; Discovery.EvClose] Samples.listening)
     = [Normal tt; Throw ERR_SOCKET_DGRAM_NOT_RUNNING]
  /\ fst (Discovery.run [Discovery.EvStop; Discovery.EvStop] Samples.listening)
     = [Normal tt; Throw ERR_SOCKET_DGRAM_NOT_RUNNING].
Proof.
  intros once.
  destruct (close_post w) as (_ & [_ Hh] & _).
  destruct (close_post once) as (C & S & N & _).
  fold once in Hh. rewrite Hh in C.
  split; [exact C|]. split; [exact S|]. split; [exact N|].
  split; vm_compute; reflexivity.
Qed.

(** The first [close()] of a listening engine returns normally and cancels
    the periodic timer. *)
Lemma close_listening :
  fst (Discovery.close Samples.listening) = Normal tt
  /\ Discovery.intervals Samples.listening = [0%nat]
  /\ Discovery.intervals (snd (Discovery.close Samples.listening)) = [].
Proof. vm_compute. repeat split. Qed.

(* ===================================================================== *)
(** * The two payloads *)
(* ===================================================================== *)


(** X19. The discovery response rendered by the constructor, for every
    configuration: it starts with the status line, holds the cache control
    of 300 and the search target [roku:ecp], a location header built from
    the advertised address and port, and ends with the USN header that
    carries the usn as given, followed by a line of four blanks. *)
Lemma ssdpResponse_headers (hostIp usn advertiseIp : string) (advertisePort : N) :
  let r := Discovery.ssdpResponse
             (Discovery.constructor hostIp usn advertiseIp advertisePort) in
  JS.startsWith r ("HTTP/1.1 200 OK" ++ LF) = true
  /\ JS.includes r ("Cache-Control: max-age = 300" ++ LF) = true
  /\ JS.includes r ("ST: roku:ecp" ++ LF) = true
  /\ (exists pre post,
        r = pre ++ ("Location: http://" ++ advertiseIp ++ ":"
                    ++ JS.ofN advertisePort ++ "/" ++ LF) ++ post)
  /\ (exists pre,
        r = pre ++ ("USN: uuid:roku:ecp:" ++ usn ++ LF) ++ "    ").
Proof.
  intros r. split; [reflexivity|]. split; [reflexivity|].
  split; [reflexivity|]. split.
  - exists ("HTTP/1.1 200 OK" ++ LF
            ++ "      Cache-Control: max-age = 300" ++ LF
            ++ "      ST: roku:ecp" ++ LF
            ++ "      SERVER: Roku/12.0.0 UPnP/1.0 Roku/12.0.0" ++ LF
            ++ "      Ext: " ++ LF ++ "      "),
           ("      USN: uuid:roku:ecp:" ++ usn ++ LF ++ "    ").
    unfold r. cbn [Discovery.ssdpResponse Discovery.constructor].
    unfold Discovery.ssdpResponse_text.
    rewrite !append_assoc. reflexivity.
  - exists ("HTTP/1.1 200 OK" ++ LF
            ++ "      Cache-Control: max-age = 300" ++ LF
            ++ "      ST: roku:ecp" ++ LF
            ++ "      SERVER: Roku/12.0.0 UPnP/1.0 Roku/12.0.0" ++ LF
            ++ "      Ext: " ++ LF
            ++ "      Location: http://" ++ advertiseIp ++ ":"
            ++ JS.ofN advertisePort ++ "/" ++ LF ++ "      ").
    unfold r. cbn [Discovery.ssdpResponse Discovery.constructor].
    unfold Discovery.ssdpResponse_text.
    rewrite !append_assoc. reflexivity.
Qed.

(** The announcement carries the same location header. *)
Lemma notifyBroadcast_location (hostIp usn advertiseIp : string)
    (advertisePort : N) :
  exists pre post,
    Discovery.notifyBroadcast
      (Discovery.constructor hostIp usn advertiseIp advertisePort)
    = pre ++ ("Location: http://" ++ advertiseIp ++ ":"
              ++ JS.ofN advertisePort ++ "/" ++ LF) ++ post.
Proof.
  exists ("NOTIFY * HTTP/1.1" ++ LF
          ++ "      HOST: 239.255.255.250:1900" ++ LF
          ++ "      Cache-Control: max-age = 300" ++ LF
          ++ "      NT: upnp:rootdevice" ++ LF
          ++ "      NTS: ssdp:alive" ++ LF ++ "      "),
         ("      USN: uuid:roku:ecp:{usn}" ++ LF ++ "    ").
  cbn [Discovery.notifyBroadcast Discovery.constructor].
  unfold Discovery.notifyBroadcast_text. rewrite !append_assoc. reflexivity.
Qed.

(** C6. The announcement does not carry the usn: its text is the same for
    every usn, its USN header ends with the five characters [{usn}], and
    for the usn [ABC123] the text holds neither [ABC123] nor the header the
    response carries. *)
Theorem notify_usn_is_placeholder
    (hostIp usn usn' advertiseIp : string) (advertisePort : N) :
  Discovery.notifyBroadcast
    (Discovery.constructor hostIp usn advertiseIp advertisePort)
  = Discovery.notifyBroadcast
      (Discovery.constructor hostIp usn' advertiseIp advertisePort)
  /\ (exists pre,
        Discovery.notifyBroadcast
          (Discovery.constructor hostIp usn advertiseIp advertisePort)
        = pre ++ ("USN: uuid:roku:ecp:{usn}" ++ LF) ++ "    ")
  /\ JS.includes (Discovery.notifyBroadcast Samples.protocol) "ABC123" = false
  /\ JS.includes (Discovery.ssdpResponse Samples.protocol)
       "USN: uuid:roku:ecp:ABC123" = true
  /\ JS.includes (Discovery.notifyBroadcast Samples.protocol)
       "USN: uuid:roku:ecp:ABC123" = false.
Proof.
  split; [reflexivity|]. split; [|split; [|split]]; try reflexivity.
  exists ("NOTIFY * HTTP/1.1" ++ LF
          ++ "      HOST: 239.255.255.250:1900" ++ LF
          ++ "      Cache-Control: max-age = 300" ++ LF
          ++ "      NT: upnp:rootdevice" ++ LF
          ++ "      NTS: ssdp:alive" ++ LF
          ++ "      Location: http://" ++ advertiseIp ++ ":"
          ++ JS.ofN advertisePort ++ "/" ++ LF ++ "      ").
  cbn [Discovery.notifyBroadcast Discovery.constructor].
  unfold Discovery.notifyBroadcast_text. rewrite !append_assoc. reflexivity.
Qed.

(* ===================================================================== *)
(** * The access guard *)
(* ===================================================================== *)

Lemma host_allowed_iff (h : string) (l : list string) :
  List.existsb (String.eqb h) l = true <-> In h l.
Proof.
  rewrite List.existsb_exists. split.
  - intros (x & Hx & E). apply String.eqb_eq in E. subst x. exact Hx.
  - intros H. exists h. split; [exact H|]. apply String.eqb_refl.
Qed.

Section Guard.

Context {S : Type}.
Variable IPAddress : Type.
Variable ip_address : string -> IPAddress.
Variable is_private : IPAddress -> bool.

Lemma guard_pass (self : Server.EmulatedRokuServer) (request : Server.Request)
    (next : Server.Request -> Server.Env S -> Server.Outcome * Server.Env S)
    (env : Server.Env S) :
  In (Server.host request) (Server.allowed_hosts self) ->
  is_private (ip_address (Server.remote request)) = true ->
  Server._check_remote_and_host_ip IPAddress ip_address is_private
    self request next env = next request env.
Proof.
  intros Hh Hr. unfold Server._check_remote_and_host_ip.
  apply host_allowed_iff in Hh. rewrite Hh, Hr. reflexivity.
Qed.

Lemma guard_host_denied (self : Server.EmulatedRokuServer)
    (request : Server.Request)
    (next : Server.Request -> Server.Env S -> Server.Outcome * Server.Env S)
    (env : Server.Env S) :
  ~ In (Server.host request) (Server.allowed_hosts self) ->
  Server._check_remote_and_host_ip IPAddress ip_address is_private
    self request next env
  = (Server.Raise Server.HTTPForbidden,
     Server.warning
       ("Rejected non-advertised access by host " ++ Server.host request) env).
Proof.
  intros Hh. unfold Server._check_remote_and_host_ip.
  rewrite <- host_allowed_iff in Hh. apply not_true_is_false in Hh.
  rewrite Hh. reflexivity.
Qed.

Lemma guard_remote_denied (self : Server.EmulatedRokuServer)
    (request : Server.Request)
    (next : Server.Request -> Server.Env S -> Server.Outcome * Server.Env S)
    (env : Server.Env S) :
  In (Server.host request) (Server.allowed_hosts self) ->
  is_private (ip_address (Server.remote request)) <> true ->
  Server._check_remote_and_host_ip IPAddress ip_address is_private
    self request next env
  = (Server.Raise Server.HTTPForbidden,
     Server.warning
       ("Rejected non-local access from remote " ++ Server.remote request) env).
Proof.
  intros Hh Hr. unfold Server._check_remote_and_host_ip.
  apply host_allowed_iff in Hh. apply not_true_is_false in Hr.
  rewrite Hh, Hr. reflexivity.
Qed.

End Guard.

(** C1. The guard hands the request to the routed handler if and only if
    the Host header is one of [allowed_hosts] and the remote address is
    private.  A Host that is not allowed is refused whatever the remote
    address is; an allowed Host with a remote address that is not private is
    refused next.  A refusal is the 403 exception, it is the same whatever
    the routed handler is, and it leaves the command handler's state
    untouched. *)
Theorem guard_allows_iff
    (S IPAddress : Type) (ip_address : string -> IPAddress)
    (is_private : IPAddress -> bool)
    (self : Server.EmulatedRokuServer) (request : Server.Request)
    (env : Server.Env S) :
  let host_ok := In (Server.host request) (Server.allowed_hosts self) in
  let remote_ok := is_private (ip_address (Server.remote request)) = true in
  let guard := Server._check_remote_and_host_ip
                 IPAddress ip_address is_private self request in
  ((host_ok /\ remote_ok) <-> (forall next, guard next env = next request env))
  /\ (~ host_ok ->
      forall next,
        guard next env
        = (Server.Raise Server.HTTPForbidden,
           Server.warning
             ("Rejected non-advertised access by host " ++ Server.host request)
             env))
  /\ (host_ok -> ~ remote_ok ->
      forall next,
        guard next env
        = (Server.Raise Server.HTTPForbidden,
           Server.warning
             ("Rejected non-local access from remote " ++ Server.remote request)
             env))
  /\ (~ (host_ok /\ remote_ok) ->
      forall next,
        Server.http_status (fst (guard next env)) = 403%N
        /\ Server.hstate (snd (guard next env)) = Server.hstate env).
Proof.
  intros host_ok remote_ok guard.
  assert (Dh : host_ok \/ ~ host_ok).
  { unfold host_ok. rewrite <- host_allowed_iff.
    destruct (List.existsb _ _); [left; reflexivity|right; discriminate]. }
  assert (Dr : remote_ok \/ ~ remote_ok).
  { unfold remote_ok.
    destruct (is_private _); [left; reflexivity|right; discriminate]. }
  split; [split|split; [|split]].
  - intros [Hh Hr] next. apply guard_pass; assumption.
  - intros H.
    pose proof (H (fun _ e => (Server.Respond Server.Response_empty, e))) as P.
    unfold guard in P. split.
    + destruct Dh as [Hh|Hh]; [exact Hh|].
      rewrite guard_host_denied in P by exact Hh. discriminate.
    + destruct Dr as [Hr|Hr]; [exact Hr|].
      destruct Dh as [Hh|Hh].
      * rewrite guard_remote_denied in P by assumption. discriminate.
      * rewrite guard_host_denied in P by exact Hh. discriminate.
  - intros Hh next. apply guard_host_denied. exact Hh.
  - intros Hh Hr next. apply guard_remote_denied; assumption.
  - intros H next. unfold guard. destruct Dh as [Hh|Hh].
    + destruct Dr as [Hr|Hr]; [exfalso; apply H; split; assumption|].
      rewrite guard_remote_denied by assumption. split; reflexivity.
    + rewrite guard_host_denied by exact Hh. split; reflexivity.
Qed.

(** The theorem at the sample server, for a request from [192.168.1.20]. *)
Lemma guard_allows_iff_witness :
  Server._check_remote_and_host_ip SpecAddress.IPAddress
    SpecAddress.ip_address SpecAddress.is_private Samples.server
    (Samples.post "/keydown/Home")
    (Server.routed Server.Recorder Samples.server) Samples.env0
  = Server.routed Server.Recorder Samples.server
      (Samples.post "/keydown/Home") Samples.env0.
Proof.
  apply (proj1 (proj1 (guard_allows_iff (list Server.HandlerCall)
                         SpecAddress.IPAddress SpecAddress.ip_address
                         SpecAddress.is_private Samples.server
                         (Samples.post "/keydown/Home") Samples.env0))).
  split.
  - vm_compute. right. left. reflexivity.
  - vm_compute. reflexivity.
Defined.

Example private_and_public_remotes :
  List.map (fun r => SpecAddress.is_private (SpecAddress.ip_address r))
    ["192.168.1.5"; "10.1.2.3"; "172.16.0.1"; "172.32.0.1"; "127.0.0.1";
     "::ffff:192.168.1.5"; "8.8.8.8"; "::ffff:8.8.8.8"; "not an address"]
  = [true; true; true; false; true; true; false; false; false].
Proof. vm_compute. reflexivity. Qed.

(** The draft's guard sends the 403 for a Host that is not allowed and
    then goes on: with a private remote address the routed handler runs
    all the same. *)
Lemma draft_guard_falls_through
    (S : Type) (isValid : string -> bool) (range : string -> string)
    (allowedHosts : list string) (h ip : string)
    (next : Eff.M (Draft.Exchange S) unit) (x : Draft.Exchange S) :
  Draft.headersSent x = false ->
  ~ In h allowedHosts ->
  isValid (JS.replace ip "::ffff:" "") = true ->
  JS.startsWith (range (JS.replace ip "::ffff:" "")) "private" = true ->
  Draft.middleware isValid range allowedHosts (Some h) (Some ip) next x
  = next {| Draft.headersSent := true;
            Draft.responses :=
              (Draft.responses x ++ [(403%N, "Forbidden - Host not allowed")])%list;
            Draft.hstate := Draft.hstate x |}.
Proof.
  intros Hs Hh Hv Hp. unfold Draft.middleware, Eff.bind.
  rewrite <- host_allowed_iff in Hh. apply not_true_is_false in Hh.
  rewrite Hh. cbn [negb]. unfold Draft.send at 1. rewrite Hs.
  rewrite Hv, Hp. reflexivity.
Qed.

Example draft_refused_post_runs_handler :
  Draft.middleware Samples.isValid Samples.range
    ["192.168.1.10"; "192.168.1.10:8060"] (Some "rebind.example")
    (Some "::ffff:192.168.1.20")
    (Draft.keydown_route Server.Recorder "ABC123" "Home")
    {| Draft.headersSent := false; Draft.responses := []; Draft.hstate := [] |}
  = (Throw ERR_HTTP_HEADERS_SENT,
     {| Draft.headersSent := true;
        Draft.responses := [(403%N, "Forbidden - Host not allowed")];
        Draft.hstate := [Server.KeyDown (Server.Str "ABC123") "Home"] |}).
Proof. vm_compute. reflexivity. Qed.

(* ===================================================================== *)
(** * Construction of the server *)
(* ===================================================================== *)

Lemma set_runtime_allowed_hosts (dp : option Discovery.World)
    (ar : option Server.AppRunner) (self : Server.EmulatedRokuServer) :
  Server.allowed_hosts (Server.set_runtime dp ar self) = Server.allowed_hosts self.
Proof. reflexivity. Qed.

Lemma close_allowed_hosts (self : Server.EmulatedRokuServer) :
  Server.allowed_hosts (snd (Server.close self)) = Server.allowed_hosts self.
Proof.
  unfold Server.close. destruct (Server.discovery_proto self) as [w|];
    [|reflexivity].
  destruct (Discovery.close w) as [[u|e] w']; reflexivity.
Qed.

Section Operations.

Context {S : Type}.
Variable handler : Server.CommandHandler S.
Variable IPAddress : Type.
Variable ip_address : string -> IPAddress.
Variable is_private : IPAddress -> bool.

Lemma step_allowed_hosts (op : Server.Operation)
    (st : Server.EmulatedRokuServer * Server.Env S) :
  Server.allowed_hosts
    (fst (Server.step handler IPAddress ip_address is_private op st))
  = Server.allowed_hosts (fst st).
Proof.
  destruct st as [self env]. destruct op as [reached| |request]; cbn.
  - destruct reached; reflexivity.
  - apply close_allowed_hosts.
  - reflexivity.
Qed.

Lemma steps_allowed_hosts (ops : list Server.Operation)
    (st : Server.EmulatedRokuServer * Server.Env S) :
  Server.allowed_hosts
    (fst (Server.steps handler IPAddress ip_address is_private ops st))
  = Server.allowed_hosts (fst st).
Proof.
  revert st. induction ops as [|op ops IH]; intros st; [reflexivity|].
  unfold Server.steps in *. cbn [List.fold_left]. rewrite IH.
  apply step_allowed_hosts.
Qed.

End Operations.

(** C7. The constructor sets [allowed_hosts] to the four strings [hostIp],
    [hostIp:listenPort], [advertiseIp] and [advertiseIp:advertisePort],
    the advertised address and port being [hostIp] and [listenPort] when
    the caller leaves them out; and no sequence of [start], [close] and
    requests changes the list. *)
Theorem allowed_hosts_fixed
    (uuid5 : string -> string -> string) (OID : string) (win32 : bool)
    (usn hostIp : string) (listenPort : N)
    (advertiseIp : option string) (advertisePort : option N)
    (bindMulticast : option bool) :
  let self := Server.constructor uuid5 OID win32 usn hostIp listenPort
                advertiseIp advertisePort bindMulticast in
  let a := match advertiseIp with Some x => x | None => hostIp end in
  let p := match advertisePort with Some x => x | None => listenPort end in
  Server.advertiseIp self = a
  /\ Server.advertisePort self = p
  /\ Server.allowed_hosts self
     = [hostIp; hostIp ++ ":" ++ JS.ofN listenPort; a; a ++ ":" ++ JS.ofN p]
  /\ (forall (S : Type) (handler : Server.CommandHandler S)
        (IPAddress : Type) (ip_address : string -> IPAddress)
        (is_private : IPAddress -> bool)
        (ops : list Server.Operation) (env : Server.Env S),
        Server.allowed_hosts
          (fst (Server.steps handler IPAddress ip_address is_private ops
                  (self, env)))
        = Server.allowed_hosts self).
Proof.
  intros self a p. split; [reflexivity|]. split; [reflexivity|].
  split; [reflexivity|].
  intros S handler IPAddress ip_address is_private ops env.
  apply (steps_allowed_hosts handler IPAddress ip_address is_private ops
           (self, env)).
Qed.

Example allowed_hosts_sample :
  Server.allowed_hosts Samples.server
  = ["192.168.1.10"; "192.168.1.10:8060"; "192.168.1.10"; "192.168.1.10:8060"]
  /\ Server.allowed_hosts
       (Server.constructor Samples.uuid5 "oid" false "ABC123" "192.168.1.10"
          8060 (Some "203.0.113.7") (Some 80%N) None)
     = ["192.168.1.10"; "192.168.1.10:8060"; "203.0.113.7"; "203.0.113.7:80"].
Proof. vm_compute. split; reflexivity. Qed.

(** With the arguments in the order of the package, the name first and
    one of its namespaces second, the call returns the identifier of the
    name, the same at every call. *)
Lemma v5_in_package_order
    (sha1_uuid : string -> string -> string) (is_uuid : string -> bool)
    (usn : string) :
  is_uuid "6ba7b811-9dad-11d1-80b4-00c04fd430c8" = true ->
  Server.v5 sha1_uuid is_uuid (Server.Str usn) (Server.v5_property "URL")
  = Normal (sha1_uuid usn "6ba7b811-9dad-11d1-80b4-00c04fd430c8").
Proof. intros H. cbn. rewrite H. reflexivity. Qed.

(** C9. The call that is to derive the device id,
    [uuid5(uuid5.OID, rokuUsn)], throws a [TypeError] for every usn: the
    function imported as [uuid5] has no property [OID], so the value to
    hash is [undefined], and the usn stands where the namespace goes.  No
    id is derived, and the constructor returns no server object. *)
Theorem uuid_call_throws_for_every_usn
    (sha1_uuid : string -> string -> string) (is_uuid : string -> bool)
    (win32 : bool) (usn hostIp : string) (listenPort : N)
    (advertiseIp : option string) (advertisePort : option N)
    (bindMulticast : option bool) :
  Server.v5_property "OID" = Server.Undefined
  /\ Server.derive_uuid sha1_uuid is_uuid usn = Throw TypeError
  /\ Server.construct sha1_uuid is_uuid win32 usn hostIp listenPort
       advertiseIp advertisePort bindMulticast
     = Throw TypeError.
Proof.
  assert (D : Server.derive_uuid sha1_uuid is_uuid usn = Throw TypeError).
  { unfold Server.derive_uuid, Server.v5. cbn.
    destruct (is_uuid usn); reflexivity. }
  split; [reflexivity|]. split; [exact D|].
  unfold Server.construct. rewrite D. reflexivity.
Qed.

(* ===================================================================== *)
(** * Command requests *)
(* ===================================================================== *)

Lemma resolve_found (rs : list (string * Server.Pattern * string))
    (meth path : string) (seen : bool) (h : string)
    (mi : list (string * string)) :
  Server.resolve rs meth path seen = Server.Found h mi ->
  exists pat, In (meth, pat, h) rs /\ Server.match_pattern pat path = Some mi.
Proof.
  revert seen. induction rs as [|[[m pat] h'] rs IH]; intros seen H.
  - cbn in H. destruct seen; discriminate.
  - cbn [Server.resolve] in H.
    destruct (Server.match_pattern pat path) as [mi'|] eqn:M.
    + destruct (String.eqb m meth) eqn:E.
      * injection H as <- <-. apply String.eqb_eq in E. subst m.
        exists pat. split; [left; reflexivity|exact M].
      * destruct (IH _ H) as (pat' & Hin & Hm).
        exists pat'. split; [right; exact Hin|exact Hm].
    + destruct (IH _ H) as (pat' & Hin & Hm).
      exists pat'. split; [right; exact Hin|exact Hm].
Qed.

(** None of the names registered by [_setup_app] is a method of the
    class. *)
Lemma routes_unbound (m : string) (pat : Server.Pattern) (name : string) :
  In (m, pat, name) Server.routes -> Server.method_named name = None.
Proof.
  intros H. cbn in H.
  repeat match type of H with
         | _ \/ _ => destruct H as [H|H]
         | False => destruct H
         end;
    injection H as <- <- <-; reflexivity.
Qed.

Lemma resolve_keydown (key : string) :
  Server.segment_ok key = true ->
  Server.resolve Server.routes "POST" ("/keydown/" ++ key) false
  = Server.Found "_roku_keydown_handler" [("key", key)].
Proof. intros H. cbn. rewrite H. reflexivity. Qed.

Lemma resolve_keyup (key : string) :
  Server.segment_ok key = true ->
  Server.resolve Server.routes "POST" ("/keyup/" ++ key) false
  = Server.Found "_roku_keyup_handler" [("key", key)].
Proof. intros H. cbn. rewrite H. reflexivity. Qed.

Lemma resolve_keypress (key : string) :
  Server.segment_ok key = true ->
  Server.resolve Server.routes "POST" ("/keypress/" ++ key) false
  = Server.Found "_roku_keypress_handler" [("key", key)].
Proof. intros H. cbn. rewrite H. reflexivity. Qed.

Lemma resolve_launch (id : string) :
  Server.segment_ok id = true ->
  Server.resolve Server.routes "POST" ("/launch/" ++ id) false
  = Server.Found "_roku_launch_handler" [("id", id)].
Proof. intros H. cbn. rewrite H. reflexivity. Qed.

(** No request reaches an operation of the command handler, and none is
    answered with a response of a handler. *)
Lemma request_reaches_no_operation
    (S : Type) (handler : Server.CommandHandler S)
    (IPAddress : Type) (ip_address : string -> IPAddress)
    (is_private : IPAddress -> bool)
    (self : Server.EmulatedRokuServer) (request : Server.Request)
    (env : Server.Env S) :
  let r := Server.handle_request handler IPAddress ip_address is_private
             self request env in
  Server.hstate (snd r) = Server.hstate env
  /\ forall resp, fst r <> Server.Respond resp.
Proof.
  intros r. unfold r, Server.handle_request, Server._check_remote_and_host_ip.
  destruct (List.existsb (String.eqb (Server.host request))
              (Server.allowed_hosts self)); cbn [negb];
    [|split; [reflexivity|discriminate]].
  destruct (is_private (ip_address (Server.remote request)));
    cbn [negb]; [|split; [reflexivity|discriminate]].
  unfold Server.routed.
  destruct (Server.resolve Server.routes (Server.method request)
              (Server.path request) false) as [name mi| |] eqn:R;
    [|split; [reflexivity|discriminate]|split; [reflexivity|discriminate]].
  destruct (resolve_found _ _ _ _ _ _ R) as (pat & Hin & _).
  rewrite (routes_unbound _ _ _ Hin). split; [reflexivity|discriminate].
Qed.

(** C8. An authorized POST to [/keydown/<key>] (and likewise [/keyup/],
    [/keypress/] and [/launch/]) does not reach the command handler: the
    route is registered with the member [_roku_keydown_handler], which the
    class does not have, so the request fails with a [TypeError] and the
    handler's state is as before; no request at all changes it.  The
    bodies of the key handlers, run on the parameter, call the members
    [on_keydown], [on_keyup] and [on_keypress], which the command handler
    does not have, and fail the same way; the body of the launch handler
    calls [launch] with [undefined], the value of [this.roku_usn], in the
    place of the usn. *)
Theorem command_post_reaches_no_operation
    (S : Type) (handler : Server.CommandHandler S)
    (IPAddress : Type) (ip_address : string -> IPAddress)
    (is_private : IPAddress -> bool)
    (self : Server.EmulatedRokuServer) (h r param : string)
    (env : Server.Env S) :
  In h (Server.allowed_hosts self) ->
  is_private (ip_address r) = true ->
  Server.segment_ok param = true ->
  let post p :=
    Server.handle_request handler IPAddress ip_address is_private self
      {| Server.method := "POST"; Server.path := p;
         Server.host := h; Server.remote := r |} env in
  let body hd name := Server.run_handler handler self hd [(name, param)] env in
  post ("/keydown/" ++ param) = (Server.Fail TypeError, env)
  /\ post ("/keyup/" ++ param) = (Server.Fail TypeError, env)
  /\ post ("/keypress/" ++ param) = (Server.Fail TypeError, env)
  /\ post ("/launch/" ++ param) = (Server.Fail TypeError, env)
  /\ (forall request,
        Server.hstate
          (snd (Server.handle_request handler IPAddress ip_address is_private
                  self request env))
        = Server.hstate env)
  /\ body Server.roku_keydown_handler "key" = (Server.Fail TypeError, env)
  /\ body Server.roku_keyup_handler "key" = (Server.Fail TypeError, env)
  /\ body Server.roku_keypress_handler "key" = (Server.Fail TypeError, env)
  /\ body Server.roku_launch_handler "id"
     = (Server.Respond Server.Response_empty,
        Server.call (Server.launch handler Server.Undefined param) env).
Proof.
  intros Hh Hr Hp post body. unfold post, body, Server.handle_request.
  split; [|split; [|split; [|split; [|split; [|split; [|split; [|split]]]]]]].
  - rewrite guard_pass by assumption. unfold Server.routed.
    cbn [Server.method Server.path]. rewrite resolve_keydown by exact Hp.
    reflexivity.
  - rewrite guard_pass by assumption. unfold Server.routed.
    cbn [Server.method Server.path]. rewrite resolve_keyup by exact Hp.
    reflexivity.
  - rewrite guard_pass by assumption. unfold Server.routed.
    cbn [Server.method Server.path]. rewrite resolve_keypress by exact Hp.
    reflexivity.
  - rewrite guard_pass by assumption. unfold Server.routed.
    cbn [Server.method Server.path]. rewrite resolve_launch by exact Hp.
    reflexivity.
  - intros request.
    exact (proj1 (request_reaches_no_operation S handler IPAddress ip_address
                    is_private self request env)).
  - reflexivity.
  - reflexivity.
  - reflexivity.
  - reflexivity.
Qed.

(** A POST to [/keydown/Home] on the sample server with the recording
    handler: the request fails and the handler has recorded no call. *)
Lemma command_post_reaches_no_operation_witness :
  Server.handle_request Server.Recorder SpecAddress.IPAddress
    SpecAddress.ip_address SpecAddress.is_private Samples.server
    (Samples.post "/keydown/Home") Samples.env0
  = (Server.Fail TypeError,
     {| Server.hstate := []; Server.warnings := [] |}).
Proof.
  apply (proj1 (command_post_reaches_no_operation (list Server.HandlerCall)
                  Server.Recorder SpecAddress.IPAddress SpecAddress.ip_address
                  SpecAddress.is_private Samples.server
                  "192.168.1.10:8060" "192.168.1.20" "Home" Samples.env0
                  ltac:(vm_compute; right; left; reflexivity)
                  ltac:(vm_compute; reflexivity)
                  ltac:(vm_compute; reflexivity))).
Defined.

(** A refused POST reaches no handler operation. *)
Example refused_post_calls_nothing :
  Server.handle_request Server.Recorder SpecAddress.IPAddress
    SpecAddress.ip_address SpecAddress.is_private Samples.server
    {| Server.method := "POST"; Server.path := "/keydown/Home";
       Server.host := "192.168.1.10:8060"; Server.remote := "8.8.8.8" |}
    Samples.env0
  = (Server.Raise Server.HTTPForbidden,
     {| Server.hstate := [];
        Server.warnings := ["Rejected non-local access from remote 8.8.8.8"] |}).
Proof. vm_compute. reflexivity. Qed.

(** What the specification asks for on the recording handler, for
    comparison: one call with the usn and the key. *)
Example expected_keydown_call :
  Server.hstate
    (Server.call (Server.onKeydown Server.Recorder (Server.Str "ABC123") "Home")
       Samples.env0)
  = [Server.KeyDown (Server.Str "ABC123") "Home"].
Proof. reflexivity. Qed.

(** The server's own [close] runs the protocol's [close] at most once:
    after a close that returned, a second one does nothing. *)
Lemma server_close_twice (self : Server.EmulatedRokuServer) :
  fst (Server.close self) = Normal tt ->
  Server.close (snd (Server.close self)) = (Normal tt, snd (Server.close self)).
Proof.
  unfold Server.close. destruct (Server.discovery_proto self) as [w|].
  - destruct (Discovery.close w) as [[u|e] w']; cbn; [reflexivity|discriminate].
  - reflexivity.
Qed.

(* ===================================================================== *)
(** * The engine over whole runs *)
(* ===================================================================== *)

Lemma take_timer_some (h : nat) (ts : list Timer) (t : Timer)
    (rest : list Timer) :
  Discovery.take_timer h ts = Some (t, rest) ->
  t_handle t = h
  /\ In t ts
  /\ (forall x, In x rest -> In x ts)
  /\ List.length ts = S (List.length rest)
  /\ (List.NoDup (List.map t_handle ts) ->
      List.NoDup (List.map t_handle rest)).
Proof.
  revert rest. induction ts as [|x ts IH]; intros rest E; [discriminate|].
  cbn [Discovery.take_timer] in E.
  destruct (Nat.eqb (t_handle x) h) eqn:Ex.
  - injection E as <- <-. apply Nat.eqb_eq in Ex.
    split; [exact Ex|]. split; [left; reflexivity|].
    split; [intros y Hy; right; exact Hy|]. split; [reflexivity|].
    intros N. cbn in N. inversion N; assumption.
  - destruct (Discovery.take_timer h ts) as [[y r']|]; [|discriminate].
    injection E as <- <-.
    destruct (IH r' eq_refl) as (Hh & Hin & Hsub & Hlen & Hnd).
    split; [exact Hh|]. split; [right; exact Hin|].
    split; [intros z [<-|Hz]; [left; reflexivity|right; apply Hsub; exact Hz]|].
    split; [cbn; rewrite Hlen; reflexivity|].
    intros N. cbn in N |- *. inversion N as [|? ? Hx Hts]; subst.
    constructor; [|apply Hnd; exact Hts].
    intros Hc. apply Hx. apply List.in_map_iff in Hc.
    destruct Hc as (z & Hz1 & Hz2). apply List.in_map_iff.
    exists z. split; [exact Hz1|apply Hsub; exact Hz2].
Qed.

Lemma connectionMade_effect (w : Discovery.World) :
  handle (Discovery.dgramSocket w) = true ->
  let w' := snd (Discovery.connectionMade w) in
  fst (Discovery.connectionMade w) = Normal tt
  /\ Discovery.connected (Discovery.this w') = true
  /\ sent w' = (sent w ++ [notify_of (Discovery.this w)])%list
  /\ Discovery.notifyInterval (Discovery.this w') = Some (Discovery.next_handle w)
  /\ In (Discovery.next_handle w) (Discovery.intervals w')
  /\ (forall h, Discovery.notifyInterval (Discovery.this w) = Some h ->
                h <> Discovery.next_handle w ->
                ~ In h (Discovery.intervals w'))
  /\ Discovery.timeouts w' = Discovery.timeouts w.
Proof.
  intros Hh.
  unfold Discovery.connectionMade, Discovery.multicastNotify, Eff.bind,
    Eff.modify, Eff.gets, Eff.ret, Discovery.clearInterval,
    Discovery.setInterval, Discovery.socket_send, sent, notify_of.
  destruct w as [p s ts ivs n]. destruct p as [a b c d e f ni co].
  destruct s as [hd ce ob]. cbn in Hh. subst hd.
  destruct ni as [h|]; cbn; rewrite valid_multicast_port; cbn.
  - split; [reflexivity|]. split; [reflexivity|]. split; [reflexivity|].
    split; [reflexivity|]. split; [left; reflexivity|].
    split; [|reflexivity].
    intros h' E Hne. injection E as <-. intros [Hn|Hf]; [congruence|].
    apply List.filter_In in Hf. destruct Hf as [_ F].
    rewrite Nat.eqb_refl in F. discriminate.
  - split; [reflexivity|]. split; [reflexivity|]. split; [reflexivity|].
    split; [reflexivity|]. split; [left; reflexivity|].
    split; [|reflexivity]. intros h' E. discriminate.
Qed.

(** X1. On a socket with a handle [connectionMade] returns normally, raises
    the flag, sends one announcement to the multicast group at once and
    arms one interval whose handle it stores; an interval stored before is
    no longer live, and the pending reply timers are left alone. *)
Theorem connectionMade_announces (w : Discovery.World) :
  handle (Discovery.dgramSocket w) = true ->
  let w' := snd (Discovery.connectionMade w) in
  fst (Discovery.connectionMade w) = Normal tt
  /\ Discovery.connected (Discovery.this w') = true
  /\ sent w' = (sent w ++ [notify_of (Discovery.this w)])%list
  /\ Discovery.notifyInterval (Discovery.this w') = Some (Discovery.next_handle w)
  /\ In (Discovery.next_handle w) (Discovery.intervals w')
  /\ (forall h, Discovery.notifyInterval (Discovery.this w) = Some h ->
                h <> Discovery.next_handle w ->
                ~ In h (Discovery.intervals w'))
  /\ Discovery.timeouts w' = Discovery.timeouts w.
Proof. exact (connectionMade_effect w). Qed.

Lemma connectionMade_announces_witness :
  List.map dg_address
    (sent (snd (Discovery.connectionMade (Discovery.fresh Samples.protocol))))
  = ["239.255.255.250"].
Proof.
  pose proof (connectionMade_announces (Discovery.fresh Samples.protocol)
                eq_refl) as H.
  cbv zeta in H. destruct H as (_ & _ & H & _). rewrite H. reflexivity.
Defined.

Lemma Forall_lt_S (n : nat) (ts : list Timer) :
  List.Forall (fun t => (t_handle t < n)%nat) ts ->
  List.Forall (fun t => (t_handle t < S n)%nat) ts.
Proof.
  intros H. eapply List.Forall_impl; [|exact H]. cbn. intros t Ht. lia.
Qed.

Lemma fresh_handle_not_pending (n : nat) (ts : list Timer) :
  List.Forall (fun t => (t_handle t < n)%nat) ts ->
  ~ In n (List.map t_handle ts).
Proof.
  intros H Hin. apply List.in_map_iff in Hin. destruct Hin as (t & E & Ht).
  rewrite List.Forall_forall in H. specialize (H t Ht). lia.
Qed.

Lemma fresh_consistent (p : Discovery.Protocol) :
  Discovery.notifyInterval p = None ->
  Discovery.connected p = false ->
  consistent (Discovery.fresh p).
Proof.
  intros Hn Hc. unfold consistent, Discovery.fresh. cbn. rewrite Hn, Hc.
  split; [reflexivity|]. split; [discriminate|]. split; [congruence|].
  split; [discriminate|]. split; [constructor|]. split; [constructor|].
  split; intros Hx; congruence.
Qed.

Lemma close_consistent (w : Discovery.World) :
  consistent w -> consistent (snd (Discovery.close w)).
Proof.
  unfold consistent, Discovery.close, Eff.bind, Eff.modify, Eff.gets, Eff.ret,
    Discovery.clearInterval, Discovery.socket_close.
  destruct w as [p s ts ivs n]. destruct p as [a b c d e f ni co].
  destruct s as [hd ce ob]. cbn.
  intros (Hi & Hc & Hn & He & Hf & Hd & Hiff).
  destruct ni as [h|]; cbn; destruct hd; cbn; subst ivs; cbn;
    rewrite ?Nat.eqb_refl; cbn;
    (split; [reflexivity|]); (split; [discriminate|]);
    (split; [congruence|]); (split; [try reflexivity; exact He|]);
    (split; [assumption|]); (split; [assumption|]);
    split; intros Hx; congruence.
Qed.

Lemma dispatch_consistent (ev : Discovery.Event) (w : Discovery.World) :
  consistent w -> consistent (snd (Discovery.dispatch ev w)).
Proof.
  intros C. destruct ev as [|msg rinfo random| |h|h|]; cbn [Discovery.dispatch].
  - (* listening *)
    destruct (handle (Discovery.dgramSocket w)) eqn:Hh; [|exact C].
    revert C Hh.
    unfold consistent, Discovery.connectionMade, Discovery.multicastNotify,
      Eff.bind, Eff.modify, Eff.gets, Eff.ret, Discovery.clearInterval,
      Discovery.setInterval, Discovery.socket_send.
    destruct w as [p s ts ivs n]. destruct p as [a b c d e f ni co].
    destruct s as [hd ce ob]. cbn.
    intros (Hi & Hc & Hn & He & Hf & Hd & Hiff) Hh. subst hd.
    destruct ni as [h|]; cbn; rewrite valid_multicast_port; cbn;
      subst ivs; cbn; rewrite ?Nat.eqb_refl; cbn;
      (split; [reflexivity|]); (split; [reflexivity|]);
      (split; [reflexivity|]); (split; [exact He|]);
      (split; [apply Forall_lt_S; exact Hf|]); (split; [exact Hd|]);
      split; intros Hx; congruence.
  - (* message *)
    destruct (handle (Discovery.dgramSocket w)) eqn:Hh; [|exact C].
    rewrite datagramReceived_cases.
    destruct (Discovery.isDiscoveryRequest (JS.trim msg)); [|exact C].
    revert C. unfold consistent, scheduled, Discovery.setTimeout.
    destruct w as [p s ts ivs n]. cbn.
    intros (Hi & Hc & Hn & He & Hf & Hd & Hiff).
    split; [exact Hi|]. split; [exact Hc|]. split; [exact Hn|].
    split; [exact He|]. split; [|split; [|exact Hiff]].
    + apply List.Forall_app. split; [apply Forall_lt_S; exact Hf|].
      constructor; [cbn; lia|constructor].
    + rewrite List.map_app. cbn.
      apply List.NoDup_app; [exact Hd| |].
      * constructor; [intros []|constructor].
      * intros x Hx [<-|[]]. exact (fresh_handle_not_pending n ts Hf Hx).
  - (* the socket's close event *)
    destruct (close_event (Discovery.dgramSocket w)) eqn:Hce; [|exact C].
    unfold Discovery.connectionLost. apply close_consistent.
    revert C Hce. unfold consistent.
    destruct w as [p s ts ivs n]. destruct s as [hd ce ob]. cbn.
    intros (Hi & Hc & Hn & He & Hf & Hd & Hiff) Hce.
    split; [exact Hi|]. split; [exact Hc|]. split; [exact Hn|].
    split; [discriminate|]. split; [assumption|]. split; assumption.
  - (* a reply timer *)
    destruct (Discovery.take_timer h (Discovery.timeouts w))
      as [[t rest]|] eqn:T; [|exact C].
    destruct (take_timer_some h _ t rest T) as (_ & _ & Hsub & _ & Hnd).
    revert C Hsub Hnd.
    unfold consistent, Discovery.run_callback, Eff.bind, Eff.gets, Eff.ret,
      Discovery.socket_send.
    destruct w as [p s ts ivs n]. destruct p as [a b c d e f ni co].
    destruct s as [hd ce ob]. destruct t as [th td [rinfo]]. cbn.
    intros (Hi & Hc & Hn & He & Hf & Hd & Hiff) Hsub Hnd.
    assert (Hf' : List.Forall (fun t => (t_handle t < n)%nat) rest).
    { rewrite List.Forall_forall in Hf |- *. intros x Hx.
      apply Hf, Hsub, Hx. }
    destruct co; cbn.
    + pose proof (Hc eq_refl) as Hhd. subst hd.
      destruct (Discovery.valid_port (port rinfo)); cbn;
        (split; [exact Hi|]); (split; [reflexivity|]); (split; [reflexivity|]);
        (split; [exact He|]); (split; [exact Hf'|]);
        (split; [apply Hnd; exact Hd|exact Hiff]).
    + split; [exact Hi|]. split; [exact Hc|]. split; [exact Hn|].
      split; [exact He|]. split; [exact Hf'|].
      split; [apply Hnd; exact Hd|exact Hiff].
  - (* the interval *)
    destruct (List.existsb (Nat.eqb h) (Discovery.intervals w)); [|exact C].
    revert C.
    unfold consistent, Discovery.multicastNotify, Eff.bind, Eff.gets,
      Discovery.socket_send.
    destruct w as [p s ts ivs n]. destruct p as [a b c d e f ni co].
    destruct s as [hd ce ob]. cbn.
    intros (Hi & Hc & Hn & He & Hf & Hd & Hiff).
    rewrite valid_multicast_port; cbn.
    destruct hd; cbn;
      (split; [exact Hi|]); (split; [try reflexivity; exact Hc|]);
      (split; [try reflexivity; exact Hn|]); (split; [exact He|]);
      (split; [assumption|]); split; assumption.
  - apply close_consistent. exact C.
Qed.

Lemma run_consistent (evs : list Discovery.Event) (w : Discovery.World) :
  consistent w -> consistent (snd (Discovery.run evs w)).
Proof.
  revert w. induction evs as [|ev evs IH]; intros w C; [exact C|].
  rewrite run_unfold. apply IH, dispatch_consistent, C.
Qed.

(** X2. Over every run of events on a newly constructed engine the live
    interval handles are exactly the one stored in [notifyInterval]: one
    while the engine is connected, none otherwise, so announcements never
    pile up and none outlives [close()]; and a connected engine always has
    a socket with a handle. *)
Theorem one_periodic_timer
    (hostIp usn advertiseIp : string) (advertisePort : N)
    (evs : list Discovery.Event) :
  let w := snd (Discovery.run evs
                  (Discovery.fresh
                     (Discovery.constructor hostIp usn advertiseIp
                        advertisePort))) in
  (Discovery.connected (Discovery.this w) = true ->
   handle (Discovery.dgramSocket w) = true
   /\ exists h, Discovery.notifyInterval (Discovery.this w) = Some h
                /\ Discovery.intervals w = [h])
  /\ (Discovery.connected (Discovery.this w) = false ->
      Discovery.notifyInterval (Discovery.this w) = None
      /\ Discovery.intervals w = []).
Proof.
  intros w.
  assert (C : consistent w).
  { apply run_consistent, fresh_consistent; reflexivity. }
  destruct C as (Hi & Hc & _ & _ & _ & _ & Hiff). split.
  - intros Hco. split; [exact (Hc Hco)|].
    apply Hiff in Hco.
    destruct (Discovery.notifyInterval (Discovery.this w)) as [h|];
      [|congruence].
    exists h. split; [reflexivity|exact Hi].
  - intros Hco.
    destruct (Discovery.notifyInterval (Discovery.this w)) as [h|].
    + assert (T : Discovery.connected (Discovery.this w) = true)
        by (apply Hiff; discriminate).
      congruence.
    + split; [reflexivity|exact Hi].
Qed.


(** ** What is sent, and to whom *)

Lemma dispatch_payloads (ev : Discovery.Event) (w : Discovery.World) :
  Discovery.ssdpResponse (Discovery.this (snd (Discovery.dispatch ev w)))
  = Discovery.ssdpResponse (Discovery.this w)
  /\ Discovery.notifyBroadcast (Discovery.this (snd (Discovery.dispatch ev w)))
     = Discovery.notifyBroadcast (Discovery.this w).
Proof.
  destruct ev as [|msg rinfo random| |h|h|]; cbn [Discovery.dispatch].
  - destruct (handle (Discovery.dgramSocket w)) eqn:Hh; [|split; reflexivity].
    revert Hh.
    unfold Discovery.connectionMade, Discovery.multicastNotify,
      Eff.bind, Eff.modify, Eff.gets, Eff.ret, Discovery.clearInterval,
      Discovery.setInterval, Discovery.socket_send.
    destruct w as [p s ts ivs n]. destruct p as [a b c d e f ni co].
    destruct s as [hd ce ob]. cbn. intros ->.
    destruct ni; cbn; rewrite valid_multicast_port; cbn; split; reflexivity.
  - destruct (handle (Discovery.dgramSocket w)); [|split; reflexivity].
    rewrite datagramReceived_cases.
    destruct (Discovery.isDiscoveryRequest (JS.trim msg)); split; reflexivity.
  - destruct (close_event (Discovery.dgramSocket w)); [|split; reflexivity].
    unfold Discovery.connectionLost, Discovery.close, Eff.bind, Eff.modify,
      Eff.gets, Eff.ret, Discovery.clearInterval, Discovery.socket_close.
    destruct w as [p s ts ivs n]. destruct p as [a b c d e f ni co].
    destruct s as [hd ce ob]. cbn.
    destruct ni; cbn; destruct hd; cbn; split; reflexivity.
  - destruct (Discovery.take_timer h (Discovery.timeouts w))
      as [[t rest]|]; [|split; reflexivity].
    destruct t as [th td [r]].
    unfold Discovery.run_callback, Eff.bind, Eff.gets, Eff.ret,
      Discovery.socket_send. cbn.
    destruct (Discovery.connected (Discovery.this w)); cbn;
      [|split; reflexivity].
    destruct (Discovery.valid_port (port r)); cbn; [|split; reflexivity].
    destruct (handle (Discovery.dgramSocket w)); split; reflexivity.
  - destruct (List.existsb (Nat.eqb h) (Discovery.intervals w));
      [|split; reflexivity].
    unfold Discovery.multicastNotify, Eff.bind, Eff.gets,
      Discovery.socket_send. cbn. rewrite valid_multicast_port. cbn.
    destruct (handle (Discovery.dgramSocket w)); split; reflexivity.
  - unfold Discovery.close, Eff.bind, Eff.modify,
      Eff.gets, Eff.ret, Discovery.clearInterval, Discovery.socket_close.
    destruct w as [p s ts ivs n]. destruct p as [a b c d e f ni co].
    destruct s as [hd ce ob]. cbn.
    destruct ni; cbn; destruct hd; cbn; split; reflexivity.
Qed.

Lemma answers_only_more (p : Discovery.Protocol) (rs rs' : list RemoteInfo)
    (w : Discovery.World) :
  List.incl rs rs' -> answers_only p rs w -> answers_only p rs' w.
Proof.
  intros I [Ht Hs]. split.
  - eapply List.Forall_impl; [|exact Ht]. cbn.
    intros t (r & E & Hr). exists r. split; [exact E|apply I, Hr].
  - eapply List.Forall_impl; [|exact Hs]. cbn.
    intros d [E|(r & Hr & E)]; [left; exact E|right].
    exists r. split; [apply I, Hr|exact E].
Qed.

Ltac unchanged :=
  cbn [snd];
  split; [left; reflexivity
         |left; split; [solve [auto|cbn; auto]|solve [lia|cbn; lia]]].

(** What one event adds to the datagrams sent and to the pending timers. *)
Lemma dispatch_effect (ev : Discovery.Event) (w : Discovery.World) :
  let w' := snd (Discovery.dispatch ev w) in
  (sent w' = sent w
   \/ sent w' = (sent w ++ [notify_of (Discovery.this w)])%list
   \/ exists t, In t (Discovery.timeouts w)
                /\ (S (List.length (Discovery.timeouts w'))
                    <= List.length (Discovery.timeouts w))%nat
                /\ exists r, t_callback t = Reply r
                             /\ sent w' = (sent w
                                           ++ [reply_of (Discovery.this w) r])%list)
  /\ ((forall t, In t (Discovery.timeouts w') -> In t (Discovery.timeouts w))
      /\ (List.length (Discovery.timeouts w')
          <= List.length (Discovery.timeouts w))%nat
      \/ exists msg rinfo random,
           ev = Discovery.EvMessage msg rinfo random
           /\ Discovery.isDiscoveryRequest (JS.trim msg) = true
           /\ sent w' = sent w
           /\ Discovery.timeouts w'
              = (Discovery.timeouts w
                 ++ [{| t_handle := Discovery.next_handle w;
                        t_delay := Discovery.replyDelay (JS.trim msg) random;
                        t_callback := Reply rinfo |}])%list).
Proof.
  intros w'. unfold w'. clear w'.
  destruct ev as [|msg rinfo random| |h|h|]; cbn [Discovery.dispatch].
  - destruct (handle (Discovery.dgramSocket w)) eqn:Hh.
    + destruct (connectionMade_effect w Hh) as (_ & _ & Hs & _ & _ & _ & Ht).
      cbv zeta in Hs, Ht. rewrite Hs, Ht.
      cbn [snd]; split; [right; left; reflexivity|left; split; [auto|lia]].
    + unchanged.
  - destruct (handle (Discovery.dgramSocket w)).
    + rewrite datagramReceived_cases.
      destruct (Discovery.isDiscoveryRequest (JS.trim msg)) eqn:E.
      * split; [left; reflexivity|right].
        exists msg, rinfo, random. repeat split; try assumption.
      * unchanged.
    + unchanged.
  - destruct (close_event (Discovery.dgramSocket w)).
    + unfold Discovery.connectionLost.
      match goal with
      | |- context [Discovery.close ?x] =>
          destruct (close_post x) as (_ & _ & _ & O & T & _)
      end.
      rewrite O, T. unchanged.
    + unchanged.
  - destruct (Discovery.take_timer h (Discovery.timeouts w))
      as [[t rest]|] eqn:T.
    + destruct (take_timer_some h _ t rest T) as (_ & Hin & Hsub & Hlen & _).
      destruct t as [th td [r]]. cbn [t_callback].
      destruct (Discovery.connected (Discovery.this w)) eqn:Hc.
      * unfold Discovery.run_callback, Eff.bind, Eff.gets, Eff.ret,
          Discovery.socket_send. cbn. rewrite Hc. cbn.
        destruct (Discovery.valid_port (port r)); cbn;
          [|split; [left; reflexivity|left; split; [exact Hsub|lia]]].
        destruct (handle (Discovery.dgramSocket w)); cbn.
        -- split; [|left; split; [exact Hsub|lia]].
           right; right. eexists. split; [exact Hin|].
           split; [cbn; lia|]. exists r. split; reflexivity.
        -- split; [left; reflexivity|left; split; [exact Hsub|lia]].
      * rewrite run_callback_disconnected by exact Hc.
        split; [left; reflexivity|left; split; [exact Hsub|cbn; lia]].
    + unchanged.
  - destruct (List.existsb (Nat.eqb h) (Discovery.intervals w)).
    + unfold Discovery.multicastNotify, Eff.bind, Eff.gets,
        Discovery.socket_send. cbn. rewrite valid_multicast_port. cbn.
      destruct (handle (Discovery.dgramSocket w)); cbn.
      * cbn [snd]; split; [right; left; reflexivity|left; split; [auto|lia]].
      * unchanged.
    + unchanged.
  - destruct (close_post w) as (_ & _ & _ & O & T & _).
    rewrite O, T. unchanged.
Qed.

Lemma solicited_cons (ev : Discovery.Event) (evs : list Discovery.Event) :
  solicited (ev :: evs) = (solicited [ev] ++ solicited evs)%list.
Proof. unfold solicited. cbn [List.flat_map]. rewrite List.app_nil_r. reflexivity. Qed.

Lemma run_payloads (p : Discovery.Protocol) (evs : list Discovery.Event)
    (w : Discovery.World) :
  payloads_of p w -> payloads_of p (snd (Discovery.run evs w)).
Proof.
  revert w. induction evs as [|ev evs IH]; intros w H; [exact H|].
  rewrite run_unfold. apply IH. destruct H as [H1 H2].
  destruct (dispatch_payloads ev w) as [E1 E2].
  split; congruence.
Qed.

Lemma notify_of_payloads (p : Discovery.Protocol) (w : Discovery.World) :
  payloads_of p w -> notify_of (Discovery.this w) = notify_of p.
Proof. intros [_ H]. unfold notify_of. rewrite H. reflexivity. Qed.

Lemma reply_of_payloads (p : Discovery.Protocol) (w : Discovery.World)
    (r : RemoteInfo) :
  payloads_of p w -> reply_of (Discovery.this w) r = reply_of p r.
Proof. intros [H _]. unfold reply_of. rewrite H. reflexivity. Qed.

Lemma dispatch_answers_only (p : Discovery.Protocol) (rs : list RemoteInfo)
    (ev : Discovery.Event) (w : Discovery.World) :
  payloads_of p w ->
  answers_only p rs w ->
  answers_only p (rs ++ solicited [ev]) (snd (Discovery.dispatch ev w)).
Proof.
  intros P [Ht Hs].
  destruct (dispatch_effect ev w) as [S T]. cbv zeta in S, T.
  assert (Ht' : List.Forall
                  (fun t => exists r, t_callback t = Reply r
                                      /\ In r (rs ++ solicited [ev]))
                  (Discovery.timeouts w)).
  { eapply List.Forall_impl; [|exact Ht]. cbn.
    intros t (r & E & Hr). exists r. split; [exact E|].
    apply List.in_or_app. left. exact Hr. }
  assert (Hs' : List.Forall
                  (fun d => d = notify_of p
                            \/ exists r, In r (rs ++ solicited [ev])
                                         /\ d = reply_of p r)
                  (sent w)).
  { eapply List.Forall_impl; [|exact Hs]. cbn.
    intros d [E|(r & Hr & E)]; [left; exact E|right].
    exists r. split; [apply List.in_or_app; left; exact Hr|exact E]. }
  split.
  - destruct T as [[Hsub _]|(msg & rinfo & random & -> & Hreq & _ & Htm)].
    + rewrite List.Forall_forall in Ht' |- *. intros t Hin.
      apply Ht', Hsub, Hin.
    + rewrite Htm. apply List.Forall_app. split; [exact Ht'|].
      constructor; [|constructor]. exists rinfo. split; [reflexivity|].
      apply List.in_or_app. right. unfold solicited. cbn.
      rewrite Hreq. left. reflexivity.
  - destruct S as [E|[E|(t & Hin & _ & r & Hr & E)]]; rewrite E.
    + exact Hs'.
    + apply List.Forall_app. split; [exact Hs'|].
      constructor; [|constructor]. left. apply notify_of_payloads, P.
    + apply List.Forall_app. split; [exact Hs'|].
      constructor; [|constructor]. right.
      rewrite List.Forall_forall in Ht'.
      destruct (Ht' t Hin) as (r' & Hr' & Hin').
      assert (r' = r) by congruence. subst r'.
      exists r. split; [exact Hin'|apply reply_of_payloads, P].
Qed.

Lemma run_answers_only (p : Discovery.Protocol) (evs : list Discovery.Event)
    (rs : list RemoteInfo) (w : Discovery.World) :
  payloads_of p w ->
  answers_only p rs w ->
  answers_only p (rs ++ solicited evs) (snd (Discovery.run evs w)).
Proof.
  revert rs w. induction evs as [|ev evs IH]; intros rs w P A.
  - cbn. rewrite List.app_nil_r. exact A.
  - rewrite run_unfold, solicited_cons, List.app_assoc.
    apply IH.
    + destruct P as [P1 P2]. destruct (dispatch_payloads ev w) as [E1 E2].
      split; congruence.
    + apply dispatch_answers_only; assumption.
Qed.

(** X4. Over every run of events on a newly constructed engine the two
    payloads stay the ones rendered by the constructor, and every datagram
    sent is either the announcement to the multicast group or the discovery
    response addressed to the address and port of a requester whose
    datagram, earlier in the run, was a search request. *)
Theorem sends_only_announcements_and_solicited_replies
    (hostIp usn advertiseIp : string) (advertisePort : N)
    (evs : list Discovery.Event) :
  let p := Discovery.constructor hostIp usn advertiseIp advertisePort in
  let w := snd (Discovery.run evs (Discovery.fresh p)) in
  Discovery.ssdpResponse (Discovery.this w) = Discovery.ssdpResponse p
  /\ Discovery.notifyBroadcast (Discovery.this w) = Discovery.notifyBroadcast p
  /\ List.Forall
       (fun d => d = notify_of p
                 \/ exists r, In r (solicited evs) /\ d = reply_of p r)
       (sent w).
Proof.
  intros p w.
  assert (P : payloads_of p (Discovery.fresh p)) by (split; reflexivity).
  assert (A : answers_only p [] (Discovery.fresh p))
    by (split; constructor).
  destruct (run_payloads p evs _ P) as [P1 P2].
  destruct (run_answers_only p evs [] _ P A) as [_ Hs].
  split; [exact P1|]. split; [exact P2|exact Hs].
Qed.

Lemma count_replies_step (p : Discovery.Protocol) (ev : Discovery.Event)
    (w : Discovery.World) :
  payloads_of p w ->
  is_reply p (notify_of p) = false ->
  (List.length (List.filter (is_reply p) (sent (snd (Discovery.dispatch ev w))))
   + List.length (Discovery.timeouts (snd (Discovery.dispatch ev w)))
   <= List.length (List.filter (is_reply p) (sent w))
      + List.length (Discovery.timeouts w)
      + List.length (solicited [ev]))%nat.
Proof.
  intros P N.
  destruct (dispatch_effect ev w) as [S T]. cbv zeta in S, T.
  destruct T as [[_ Hlen]|(msg & rinfo & random & -> & Hreq & Hs & Htm)].
  - destruct S as [E|[E|(t & _ & Hl & r & _ & E)]]; rewrite E.
    + lia.
    + rewrite List.filter_app, List.length_app.
      rewrite (notify_of_payloads p w P). cbn [List.filter]. rewrite N.
      cbn. lia.
    + rewrite List.filter_app, List.length_app. cbn [List.filter].
      destruct (is_reply p (reply_of (Discovery.this w) r)); cbn; lia.
  - rewrite Hs, Htm, List.length_app. unfold solicited. cbn.
    rewrite Hreq. cbn. lia.
Qed.

Lemma count_replies_run (p : Discovery.Protocol) (evs : list Discovery.Event)
    (w : Discovery.World) :
  payloads_of p w ->
  is_reply p (notify_of p) = false ->
  (List.length (List.filter (is_reply p) (sent (snd (Discovery.run evs w))))
   + List.length (Discovery.timeouts (snd (Discovery.run evs w)))
   <= List.length (List.filter (is_reply p) (sent w))
      + List.length (Discovery.timeouts w)
      + List.length (solicited evs))%nat.
Proof.
  revert w. induction evs as [|ev evs IH]; intros w P N.
  - cbn. lia.
  - rewrite run_unfold, solicited_cons, List.length_app.
    assert (P' : payloads_of p (snd (Discovery.dispatch ev w))).
    { destruct P as [P1 P2]. destruct (dispatch_payloads ev w) as [E1 E2].
      split; congruence. }
    pose proof (IH _ P' N). pose proof (count_replies_step p ev w P N). lia.
Qed.

(** X5. Over every run of events on a newly constructed engine, the
    discovery responses sent and the reply timers still pending together
    never outnumber the search requests received: a request is answered
    at most once. *)
Theorem at_most_one_reply_per_request
    (hostIp usn advertiseIp : string) (advertisePort : N)
    (evs : list Discovery.Event) :
  let p := Discovery.constructor hostIp usn advertiseIp advertisePort in
  let w := snd (Discovery.run evs (Discovery.fresh p)) in
  (List.length (List.filter (is_reply p) (sent w))
   + List.length (Discovery.timeouts w)
   <= List.length (solicited evs))%nat.
Proof.
  intros p w.
  assert (P : payloads_of p (Discovery.fresh p)) by (split; reflexivity).
  assert (N : is_reply p (notify_of p) = false) by reflexivity.
  pose proof (count_replies_run p evs _ P N) as H. cbn in H. exact H.
Qed.






(** X7. [close()] always leaves the engine stopped, whether it returns or
    throws: the flag is down, the stored interval is cleared and no longer
    live, the socket has no handle.  It returns normally exactly when the
    socket still had its handle.  It sends nothing and leaves the pending
    reply timers pending: they are not cancelled but find the flag down
    when they fire. *)
Theorem close_stops_engine (w : Discovery.World) :
  let w' := snd (Discovery.close w) in
  (fst (Discovery.close w) = Normal tt <-> handle (Discovery.dgramSocket w) = true)
  /\ Discovery.connected (Discovery.this w') = false
  /\ Discovery.notifyInterval (Discovery.this w') = None
  /\ handle (Discovery.dgramSocket w') = false
  /\ (forall h, Discovery.notifyInterval (Discovery.this w) = Some h ->
                ~ In h (Discovery.intervals w'))
  /\ sent w' = sent w
  /\ Discovery.timeouts w' = Discovery.timeouts w.
Proof.
  intros w'. destruct (close_post w) as (F & [Sc Sh] & Ni & O & T & I).
  split.
  - rewrite F. destruct (handle (Discovery.dgramSocket w));
      split; intros H; try reflexivity; discriminate.
  - split; [exact Sc|]. split; [exact Ni|]. split; [exact Sh|].
    split; [exact I|]. split; [exact O|exact T].
Qed.

(* ===================================================================== *)
(** * More on the delay *)
(* ===================================================================== *)

Lemma one_digit_hint_range_witness :
  exists q,
    Discovery.replyDelay
      (JS.trim (Samples.msearch ("MX: 7" ++ CRLF) "roku:ecp")) (1 # 2)
    = JS.Num q
    /\ (0 <= q)%Q /\ (q < inject_Z (spec_jitter_bound 7 * 1000))%Q.
Proof.
  apply (one_digit_hint_range
           (JS.trim (Samples.msearch ("MX: 7" ++ CRLF) "roku:ecp"))
           (1 # 2) "7"%char 7).
  - vm_compute. reflexivity.
  - vm_compute. reflexivity.
  - vm_compute. reflexivity.
  - unfold Qle. cbn. lia.
  - unfold Qlt. cbn. lia.
Defined.

Lemma jitter_is_number (random : Q) (seconds : Z) :
  jitter random seconds <> JS.NaN.
Proof.
  destruct (jitter_value random seconds) as (q & E & _). rewrite E.
  discriminate.
Qed.

(** X10. Whatever the datagram text, for a draw in [[0, 1)] the delay is
    either [NaN] or a number of milliseconds in [[0, 6000)]: no hint makes
    the engine wait six seconds or more. *)
Theorem numeric_delay_below_six_seconds (data : string) (random : Q) :
  (0 <= random)%Q -> (random < 1)%Q ->
  Discovery.replyDelay data random = JS.NaN
  \/ exists q, Discovery.replyDelay data random = JS.Num q
               /\ (0 <= q)%Q /\ (q < inject_Z 6000)%Q.
Proof.
  intros H0 H1.
  destruct (JS.includes data "MX:") eqn:Hin.
  - destruct (JS.at_ data (JS.indexOf data "MX:" + 4)) as [c|] eqn:Hat.
    + destruct (JS.digitValue c) as [d|] eqn:Hd.
      * right. rewrite (replyDelay_digit data random c d Hin Hat Hd).
        assert (Hb : 0 < spec_jitter_bound d <= 6).
        { unfold spec_jitter_bound. pose proof (Z.mod_pos_bound d 6). lia. }
        destruct (jitter_range random _ H0 H1 (proj1 Hb)) as (q & Hq & Hlo & Hhi).
        exists q. split; [exact Hq|]. split; [exact Hlo|].
        eapply Qlt_le_trans; [exact Hhi|].
        rewrite <- Zle_Qle. lia.
      * left. unfold Discovery.replyDelay.
        apply includes_indexOf in Hin. apply Z.eqb_neq in Hin.
        rewrite Hin, Hat. cbn [negb JS.toString].
        rewrite parseInt10_unit, Hd. reflexivity.
    + left. unfold Discovery.replyDelay.
      apply includes_indexOf in Hin. apply Z.eqb_neq in Hin.
      rewrite Hin, Hat. cbn [negb]. rewrite parseInt10_undefined. reflexivity.
  - right. rewrite (replyDelay_no_hint data random Hin).
    destruct (jitter_range random 6 H0 H1 ltac:(lia)) as (q & Hq & Hlo & Hhi).
    exists q. split; [exact Hq|]. split; [exact Hlo|exact Hhi].
Qed.

Lemma numeric_delay_below_six_seconds_witness :
  Discovery.replyDelay
    (JS.trim (Samples.msearch ("MX: 9" ++ CRLF) "roku:ecp")) (9 # 10) = JS.NaN
  \/ exists q,
       Discovery.replyDelay
         (JS.trim (Samples.msearch ("MX: 9" ++ CRLF) "roku:ecp")) (9 # 10)
       = JS.Num q
       /\ (0 <= q)%Q /\ (q < inject_Z 6000)%Q.
Proof.
  apply (numeric_delay_below_six_seconds
           (JS.trim (Samples.msearch ("MX: 9" ++ CRLF) "roku:ecp")) (9 # 10)).
  - unfold Qle. cbn. lia.
  - unfold Qlt. cbn. lia.
Defined.

(** X11. The delay is [NaN] exactly when the text holds [MX:] and the code
    unit four positions after the start of the first [MX:] is missing or
    not a decimal digit; in every other case (no [MX:] at all, or a digit
    there) it is a number. *)
Theorem delay_is_NaN_iff (data : string) (random : Q) :
  Discovery.replyDelay data random = JS.NaN
  <-> JS.includes data "MX:" = true
      /\ match JS.at_ data (JS.indexOf data "MX:" + 4) with
         | Some c => JS.isDigit c = false
         | None => True
         end.
Proof.
  destruct (JS.includes data "MX:") eqn:Hin.
  - destruct (JS.at_ data (JS.indexOf data "MX:" + 4)) as [c|] eqn:Hat.
    + unfold JS.isDigit. destruct (JS.digitValue c) as [d|] eqn:Hd.
      * rewrite (replyDelay_digit data random c d Hin Hat Hd). split.
        -- intros E. exfalso. exact (jitter_is_number _ _ E).
        -- intros [_ E]. discriminate.
      * split; [intros _; split; reflexivity|intros _].
        unfold Discovery.replyDelay.
        apply includes_indexOf in Hin. apply Z.eqb_neq in Hin.
        rewrite Hin, Hat. cbn [negb JS.toString].
        rewrite parseInt10_unit, Hd. reflexivity.
    + split; [intros _; split; [reflexivity|exact I]|intros _].
      unfold Discovery.replyDelay.
      apply includes_indexOf in Hin. apply Z.eqb_neq in Hin.
      rewrite Hin, Hat. cbn [negb]. rewrite parseInt10_undefined. reflexivity.
  - rewrite (replyDelay_no_hint data random Hin). split.
    + intros E. exfalso. exact (jitter_is_number _ _ E).
    + intros [E _]. discriminate.
Qed.

(* ===================================================================== *)
(** * The documents and the handlers that serve them *)
(* ===================================================================== *)

(** X13. The two documents carry the identity they are rendered from, as
    it is given and at fixed places: the device-info document has the uuid
    as its udn and the usn as serial number, device id and user device
    name; the description document has the usn as friendly name and serial
    number and the uuid as UDN; the text around them does not depend on
    either.  The bodies of the root and device-info handlers answer with
    the documents stored in the server, as [text/xml], and leave the
    command handler alone. *)
Theorem info_documents_carry_identity
    (S : Type) (handler : Server.CommandHandler S)
    (self : Server.EmulatedRokuServer) (mi : list (string * string))
    (env : Server.Env S) :
  (exists pre mid post,
     forall uuid usn,
       Server.formatDeviceInfoTemplate uuid usn
       = pre ++ ("<udn>" ++ uuid ++ "</udn>" ++ LF
                 ++ "  <serial-number>" ++ usn ++ "</serial-number>" ++ LF
                 ++ "  <device-id>" ++ usn ++ "</device-id>" ++ LF)
             ++ mid ++ ("<user-device-name>" ++ usn ++ "</user-device-name>" ++ LF)
             ++ post)
  /\ (exists pre mid post,
        forall uuid usn,
          Server.formatInfoTemplate uuid usn
          = pre ++ ("<friendlyName>" ++ usn ++ "</friendlyName>" ++ LF)
                ++ mid ++ ("<serialNumber>" ++ usn ++ "</serialNumber>" ++ LF
                           ++ "  <UDN>uuid:" ++ uuid ++ "</UDN>" ++ LF)
                ++ post)
  /\ Server.run_handler handler self Server.roku_info_handler mi env
     = (Server.Respond
          (Server.Response_with (Server.Text (Server.device_info self))
             "text/xml"), env)
  /\ Server.run_handler handler self Server.roku_root_handler mi env
     = (Server.Respond
          (Server.Response_with (Server.Text (Server.roku_info self))
             "text/xml"), env).
Proof.
  split; [|split; [|split; reflexivity]].
  - exists ("<device-info>" ++ LF ++ "  ").
    exists ("  <vendor-name>Roku</vendor-name>" ++ LF ++
            "  <model-number>4400X</model-number>" ++ LF ++
            "  <model-name>Roku 4</model-name>" ++ LF ++
            "  <model-region>US</model-region>" ++ LF ++
            "  <supports-ethernet>true</supports-ethernet>" ++ LF ++
            "  <wifi-mac>00:00:00:00:00:00</wifi-mac>" ++ LF ++
            "  <ethernet-mac>00:00:00:00:00:00</ethernet-mac>" ++ LF ++
            "  <network-type>ethernet</network-type>" ++ LF ++ "  ").
    eexists. intros uuid usn. unfold Server.formatDeviceInfoTemplate.
    rewrite !append_assoc. reflexivity.
  - exists ("<?xml version=" ++ DQUOTE ++ "1.0" ++ DQUOTE ++ " encoding="
            ++ DQUOTE ++ "UTF-8" ++ DQUOTE ++ " ?>" ++ LF ++
            "<root xmlns=" ++ DQUOTE ++ "urn:schemas-upnp-org:device-1-0"
            ++ DQUOTE ++ ">" ++ LF ++
            "  <specVersion>" ++ LF ++
            "    <major>1</major>" ++ LF ++
            "    <minor>0</minor>" ++ LF ++
            "  </specVersion>" ++ LF ++
            "  <device>" ++ LF ++
            "  <deviceType>urn:roku-com:device:player:1-0</deviceType>" ++ LF ++
            "  ").
    exists ("  <manufacturer>Roku</manufacturer>" ++ LF ++
            "  <manufacturerURL>http://www.roku.com/</manufacturerURL>" ++ LF ++
            "  <modelDescription>Emulated Roku</modelDescription>" ++ LF ++
            "  <modelName>Roku 4</modelName>" ++ LF ++
            "  <modelNumber>4400x</modelNumber>" ++ LF ++
            "  <modelURL>http://www.roku.com/</modelURL>" ++ LF ++ "  ").
    exists ("  </device>" ++ LF ++ "</root>" ++ LF).
    intros uuid usn. unfold Server.formatInfoTemplate.
    rewrite !append_assoc. reflexivity.
Qed.

(** Text that would need escaping goes into the device-info document as it
    is. *)
Example device_info_not_escaped :
  JS.includes (Server.formatDeviceInfoTemplate "u" "<b>&")
    "<device-id><b>&</device-id>" = true.
Proof. vm_compute. reflexivity. Qed.

(* ===================================================================== *)
(** * The life cycle of the server *)
(* ===================================================================== *)

(** X14. [close] of the server is guarded.  Without a discovery protocol
    it returns normally and only forgets the runner.  With a protocol whose
    socket is open it closes the protocol, returns normally and forgets
    protocol and runner.  With a protocol whose socket was closed already,
    the protocol's [close] throws: the error leaves [close], and protocol
    and runner stay in place.  After a [close] that returned, a further
    [close] returns normally and changes nothing. *)
Theorem server_close_guarded (self : Server.EmulatedRokuServer) :
  (Server.discovery_proto self = None ->
   Server.close self = (Normal tt, Server.set_runtime None None self))
  /\ (forall w, Server.discovery_proto self = Some w ->
                handle (Discovery.dgramSocket w) = true ->
                Server.close self
                = (Normal tt, Server.set_runtime None None self))
  /\ (forall w, Server.discovery_proto self = Some w ->
                handle (Discovery.dgramSocket w) = false ->
                fst (Server.close self) = Throw ERR_SOCKET_DGRAM_NOT_RUNNING
                /\ Server.discovery_proto (snd (Server.close self))
                   = Some (snd (Discovery.close w))
                /\ Server.api_runner (snd (Server.close self))
                   = Server.api_runner self)
  /\ (fst (Server.close self) = Normal tt ->
      Server.close (snd (Server.close self))
      = (Normal tt, snd (Server.close self))).
Proof.
  split; [|split; [|split]].
  - intros H. unfold Server.close. rewrite H. reflexivity.
  - intros w H Hh. unfold Server.close. rewrite H.
    destruct (close_post w) as (F & _). rewrite Hh in F.
    destruct (Discovery.close w) as [c w']. cbn [fst] in F. subst c.
    reflexivity.
  - intros w H Hh. unfold Server.close. rewrite H.
    destruct (close_post w) as (F & _). rewrite Hh in F.
    destruct (Discovery.close w) as [c w']. cbn [fst] in F. subst c.
    cbn. split; [reflexivity|]. split; reflexivity.
  - apply server_close_twice.
Qed.

Section Lifetime.

Context {S : Type}.
Variable handler : Server.CommandHandler S.
Variable IPAddress : Type.
Variable ip_address : string -> IPAddress.
Variable is_private : IPAddress -> bool.

Lemma step_identity (op : Server.Operation)
    (st : Server.EmulatedRokuServer * Server.Env S) :
  let self' := fst (Server.step handler IPAddress ip_address is_private op st) in
  Server.rokuUsn self' = Server.rokuUsn (fst st)
  /\ Server.roku_uuid self' = Server.roku_uuid (fst st)
  /\ Server.roku_info self' = Server.roku_info (fst st)
  /\ Server.device_info self' = Server.device_info (fst st)
  /\ Server.hostIp self' = Server.hostIp (fst st)
  /\ Server.listenPort self' = Server.listenPort (fst st)
  /\ Server.advertiseIp self' = Server.advertiseIp (fst st)
  /\ Server.advertisePort self' = Server.advertisePort (fst st).
Proof.
  destruct st as [self env]. destruct op as [reached| |request]; cbn.
  - destruct reached; repeat split.
  - unfold Server.close. destruct (Server.discovery_proto self) as [w|];
      [|repeat split].
    destruct (Discovery.close w) as [[u|e] w']; repeat split.
  - repeat split.
Qed.

End Lifetime.

(** X15. Over every sequence of [start], [close] and requests the
    identity of the device stays what the constructor made it: the usn,
    the uuid derived from it, the two documents rendered from them, and
    the bind and advertised addresses and ports. *)
Theorem identity_fixed
    (S : Type) (handler : Server.CommandHandler S)
    (IPAddress : Type) (ip_address : string -> IPAddress)
    (is_private : IPAddress -> bool)
    (ops : list Server.Operation)
    (self : Server.EmulatedRokuServer) (env : Server.Env S) :
  let self' := fst (Server.steps handler IPAddress ip_address is_private ops
                      (self, env)) in
  Server.rokuUsn self' = Server.rokuUsn self
  /\ Server.roku_uuid self' = Server.roku_uuid self
  /\ Server.roku_info self' = Server.roku_info self
  /\ Server.device_info self' = Server.device_info self
  /\ Server.hostIp self' = Server.hostIp self
  /\ Server.listenPort self' = Server.listenPort self
  /\ Server.advertiseIp self' = Server.advertiseIp self
  /\ Server.advertisePort self' = Server.advertisePort self.
Proof.
  intros self'. unfold self'. clear self'.
  change self with (fst (self, env)) at 2 4 6 8 10 12 14 16.
  generalize (self, env). clear self env.
  induction ops as [|op ops IH]; intros st; [repeat split|].
  unfold Server.steps in *. cbn [List.fold_left].
  destruct (IH (Server.step handler IPAddress ip_address is_private op st))
    as (A & B & C & D & E & F & G & H).
  destruct (step_identity handler IPAddress ip_address is_private op st)
    as (A' & B' & C' & D' & E' & F' & G' & H').
  cbv zeta in *.
  repeat split; congruence.
Qed.

(* ===================================================================== *)
(** * The Express draft *)
(* ===================================================================== *)

(** X16. The draft's middleware, on a request that has not been answered
    yet: without [req.ip] it answers 403 and stops (throwing if the Host
    check had already answered); with [req.ip] it stops only when both the
    Host check and the address check fail, the second 403 throwing; when
    exactly one check fails it sends that 403 and still runs the routed
    handler; when both pass it runs the routed handler with nothing
    sent. *)
Theorem draft_guard_cases
    (S : Type) (isValid : string -> bool) (range : string -> string)
    (allowedHosts : list string) (host ip : option string)
    (next : Eff.M (Draft.Exchange S) unit) (x : Draft.Exchange S) :
  Draft.headersSent x = false ->
  let host_bad :=
    match host with
    | None => true
    | Some h => negb (List.existsb (String.eqb h) allowedHosts)
    end in
  let remote_bad a :=
    (negb (isValid (JS.replace a "::ffff:" ""))
     || negb (JS.startsWith (range (JS.replace a "::ffff:" "")) "private"))%bool in
  Draft.middleware isValid range allowedHosts host ip next x
  = match ip with
    | None =>
        if host_bad
        then (Throw ERR_HTTP_HEADERS_SENT,
              Draft.refused "Forbidden - Host not allowed" x)
        else (Normal tt, Draft.refused "Forbidden - No remote IP" x)
    | Some a =>
        if host_bad
        then if remote_bad a
             then (Throw ERR_HTTP_HEADERS_SENT,
                   Draft.refused "Forbidden - Host not allowed" x)
             else next (Draft.refused "Forbidden - Host not allowed" x)
        else if remote_bad a
             then next (Draft.refused "Forbidden - Non-local network" x)
             else next x
    end.
Proof.
  intros Hs host_bad remote_bad.
  unfold Draft.middleware, Eff.bind. fold host_bad.
  destruct host_bad; destruct ip as [a|].
  - unfold Draft.send at 1. rewrite Hs. fold (remote_bad a).
    destruct (remote_bad a); reflexivity.
  - unfold Draft.send at 1. rewrite Hs. reflexivity.
  - cbn [Eff.ret]. fold (remote_bad a).
    destruct (remote_bad a); [|reflexivity].
    unfold Draft.send at 1. rewrite Hs. reflexivity.
  - cbn [Eff.ret]. unfold Draft.send. rewrite Hs. reflexivity.
Qed.

Lemma draft_guard_cases_witness :
  Draft.middleware Samples.isValid Samples.range
    ["192.168.1.10"; "192.168.1.10:8060"] (Some "192.168.1.10:8060")
    (Some "8.8.8.8")
    (Draft.keydown_route Server.Recorder "ABC123" "Home")
    {| Draft.headersSent := false; Draft.responses := []; Draft.hstate := [] |}
  = Draft.keydown_route Server.Recorder "ABC123" "Home"
      (Draft.refused "Forbidden - Non-local network"
         {| Draft.headersSent := false; Draft.responses := [];
            Draft.hstate := [] |}).
Proof.
  exact (draft_guard_cases (list Server.HandlerCall) Samples.isValid
           Samples.range ["192.168.1.10"; "192.168.1.10:8060"]
           (Some "192.168.1.10:8060") (Some "8.8.8.8")
           (Draft.keydown_route Server.Recorder "ABC123" "Home")
           {| Draft.headersSent := false; Draft.responses := [];
              Draft.hstate := [] |} eq_refl).
Defined.

Lemma first_external_some (infos : list Draft.NetworkInterfaceInfo)
    (a : string) :
  Draft.first_external infos = Some a ->
  exists pre ni post,
    infos = (pre ++ ni :: post)%list
    /\ Draft.first_external pre = None
    /\ Draft.family ni = "IPv4" /\ Draft.internal ni = false
    /\ Draft.ni_address ni = a.
Proof.
  induction infos as [|ni infos IH]; intros H; [discriminate|].
  cbn [Draft.first_external] in H.
  destruct (String.eqb (Draft.family ni) "IPv4" && negb (Draft.internal ni))%bool
    eqn:E.
  - injection H as <-. apply andb_prop in E. destruct E as [Ef Ei].
    apply String.eqb_eq in Ef. apply negb_true_iff in Ei.
    exists [], ni, infos. repeat split; assumption.
  - destruct (IH H) as (pre & n & post & -> & Hp & Hf & Hi & Ha).
    exists (ni :: pre), n, post. split; [reflexivity|].
    split; [cbn [Draft.first_external]; rewrite E; exact Hp|].
    repeat split; assumption.
Qed.

Lemma first_external_none (infos : list Draft.NetworkInterfaceInfo) :
  Draft.first_external infos = None <->
  (forall ni, In ni infos ->
              Draft.family ni = "IPv4" -> Draft.internal ni = true).
Proof.
  induction infos as [|ni infos IH]; cbn [Draft.first_external].
  - split; [intros _ ni []|reflexivity].
  - destruct (String.eqb (Draft.family ni) "IPv4" && negb (Draft.internal ni))%bool
      eqn:E.
    + split; [discriminate|]. intros H. exfalso.
      apply andb_prop in E. destruct E as [Ef Ei].
      apply String.eqb_eq in Ef. apply negb_true_iff in Ei.
      rewrite (H ni (or_introl eq_refl) Ef) in Ei. discriminate.
    + rewrite IH. split.
      * intros H n [<-|Hn] Hf; [|exact (H n Hn Hf)].
        apply String.eqb_eq in Hf. rewrite Hf in E. cbn in E.
        apply negb_false_iff in E. exact E.
      * intros H n Hn. apply H. right. exact Hn.
Qed.

(** X17. [getLocalIp] returns the address of the first entry, in the
    order of the interfaces and of their entries, that is IPv4 and not
    internal, whatever range that address is in; interfaces without a list
    are skipped; and when no entry qualifies it returns [127.0.0.1]. *)
Theorem getLocalIp_first_external
    (nets : list (string * option (list Draft.NetworkInterfaceInfo))) :
  (Draft.scan_interfaces nets = None
   /\ Draft.getLocalIp nets = "127.0.0.1"
   /\ (forall name infos ni,
          In (name, Some infos) nets -> In ni infos ->
          Draft.family ni = "IPv4" -> Draft.internal ni = true))
  \/ (exists before name pre ni post after,
        nets = (before ++ (name, Some (pre ++ ni :: post)) :: after)%list
        /\ Draft.scan_interfaces before = None
        /\ Draft.first_external pre = None
        /\ Draft.family ni = "IPv4" /\ Draft.internal ni = false
        /\ Draft.getLocalIp nets = Draft.ni_address ni).
Proof.
  unfold Draft.getLocalIp.
  induction nets as [|[name [infos|]] nets IH]; cbn [Draft.scan_interfaces].
  - left. split; [reflexivity|]. split; [reflexivity|]. intros ? ? ? [].
  - destruct (Draft.first_external infos) as [a|] eqn:F.
    + right. destruct (first_external_some infos a F)
        as (pre & ni & post & -> & Hp & Hf & Hi & Ha).
      exists [], name, pre, ni, post, nets.
      split; [reflexivity|]. split; [reflexivity|]. split; [exact Hp|].
      split; [exact Hf|]. split; [exact Hi|]. symmetry. exact Ha.
    + destruct IH as [(Hs & Hg & Hall)|
                      (before & nm & pre & ni & post & after
                       & -> & Hb & Hp & Hf & Hi & Hg)].
      * left. rewrite Hs. split; [reflexivity|]. split; [reflexivity|].
        intros nm infos' ni [E|Hin] Hni Hfam.
        -- injection E as <- <-.
           exact (proj1 (first_external_none infos) F ni Hni Hfam).
        -- exact (Hall nm infos' ni Hin Hni Hfam).
      * right. exists ((name, Some infos) :: before), nm, pre, ni, post, after.
        split; [reflexivity|].
        split; [cbn [Draft.scan_interfaces]; rewrite F; exact Hb|].
        split; [exact Hp|]. split; [exact Hf|]. split; [exact Hi|exact Hg].
  - destruct IH as [(Hs & Hg & Hall)|
                    (before & nm & pre & ni & post & after
                     & -> & Hb & Hp & Hf & Hi & Hg)].
    + left. split; [exact Hs|]. split; [exact Hg|].
      intros nm infos' ni [E|Hin] Hni Hfam; [discriminate|].
      exact (Hall nm infos' ni Hin Hni Hfam).
    + right. exists ((name, None) :: before), nm, pre, ni, post, after.
      split; [reflexivity|]. split; [exact Hb|].
      split; [exact Hp|]. split; [exact Hf|]. split; [exact Hi|exact Hg].
Qed.

(** A loopback entry, an IPv6 entry and an interface without a list come
    before a public IPv4 address: that address is returned. *)
Example getLocalIp_sample :
  Draft.getLocalIp
    [ ("lo", Some [ {| Draft.family := "IPv4"; Draft.internal := true;
                       Draft.ni_address := "127.0.0.1" |} ]);
      ("tun0", None);
      ("eth0", Some [ {| Draft.family := "IPv6"; Draft.internal := false;
                         Draft.ni_address := "fe80::1" |};
                      {| Draft.family := "IPv4"; Draft.internal := false;
                         Draft.ni_address := "203.0.113.7" |};
                      {| Draft.family := "IPv4"; Draft.internal := false;
                         Draft.ni_address := "192.168.1.10" |} ]) ]
  = "203.0.113.7".
Proof. reflexivity. Qed.

(* ===================================================================== *)
(** * The periodic announcement *)
(* ===================================================================== *)

(** X18. Over every run of events on a newly constructed engine, a tick
    of the interval stored in [notifyInterval] returns normally and sends
    the announcement rendered by the constructor once more, and a tick of
    any other interval handle (one that was cleared) does nothing. *)
Theorem tick_announces
    (hostIp usn advertiseIp : string) (advertisePort : N)
    (evs : list Discovery.Event) (h : nat) :
  let p := Discovery.constructor hostIp usn advertiseIp advertisePort in
  let w := snd (Discovery.run evs (Discovery.fresh p)) in
  let tick := Discovery.dispatch (Discovery.EvInterval h) w in
  (Discovery.notifyInterval (Discovery.this w) = Some h ->
   fst tick = Normal tt
   /\ sent (snd tick) = (sent w ++ [notify_of p])%list)
  /\ (Discovery.notifyInterval (Discovery.this w) <> Some h ->
      tick = (Normal tt, w)).
Proof.
  intros p w tick.
  assert (C : consistent w).
  { apply run_consistent, fresh_consistent; reflexivity. }
  assert (P : payloads_of p w).
  { apply run_payloads. split; reflexivity. }
  destruct C as (Hi & _ & Hn & _ & _ & _ & _).
  unfold tick. cbn [Discovery.dispatch]. rewrite Hi. split.
  - intros E. rewrite E in *. cbn [List.existsb]. rewrite Nat.eqb_refl.
    cbn [orb].
    assert (Hh : handle (Discovery.dgramSocket w) = true)
      by (apply Hn; discriminate).
    unfold Discovery.multicastNotify, Eff.bind, Eff.gets,
      Discovery.socket_send. cbn. rewrite Hh. cbn.
    split; [reflexivity|].
    unfold sent. cbn. fold (notify_of (Discovery.this w)).
    rewrite (notify_of_payloads p w P). reflexivity.
  - intros E.
    destruct (Discovery.notifyInterval (Discovery.this w)) as [h'|];
      [|reflexivity].
    cbn [List.existsb].
    assert (F : Nat.eqb h h' = false).
    { apply Nat.eqb_neq. intros ->. apply E. reflexivity. }
    rewrite F. reflexivity.
Qed.
